(** * Gemini Runner: the run-state store and the world simulation loop

    A shallow embedding of [src/store.ts] (the zustand store holding the
    run state) and of the per-frame object loop of the level manager,
    followed by the properties of the specification that were checked
    against them.

    Numbers.  JavaScript numbers are IEEE-754 doubles.  Fields that only
    ever hold integers (score, lives, level, lane count, multiplier,
    millisecond timestamps) are modelled as [Z]; fields that hold
    fractional values (the scroll speed, positions, timers in seconds)
    are modelled with the kernel's binary64 floats, so that [+], [*],
    [<] are the operations the program executes. *)

From Stdlib Require Import ZArith List Bool Lia Floats String Sorted.
Import ListNotations.
Open Scope Z_scope.

(* Decimal literals such as 0.40 denote the nearest double, as in JavaScript. *)
Set Warnings "-inexact-float".

(* ================================================================== *)
(** ** types.ts                                                        *)
(* ================================================================== *)

Module Types.

(** [enum GameStatus]. *)
Inductive GameStatus := MENU | PLAYING | SHOP | GAME_OVER | VICTORY.

Definition GameStatus_eqb (a b : GameStatus) : bool :=
  match a, b with
  | MENU, MENU | PLAYING, PLAYING | SHOP, SHOP
  | GAME_OVER, GAME_OVER | VICTORY, VICTORY => true
  | _, _ => false
  end.

(** The numeric constants imported from [./types].  Their values are
    not part of the sources at hand, so every definition below takes
    them as a parameter. *)
Class Constants := {
  RUN_SPEED_BASE : float;
  COMBO_WINDOW_MS : Z;
  MAX_MULTIPLIER : Z;
  REMOVE_DISTANCE : float
}.

End Types.
Export Types.

(* ================================================================== *)
(** ** store.ts                                                        *)
(* ================================================================== *)

Module Store.

(** The data fields of [interface GameState]. *)
Record GameState := mkState {
  status : GameStatus;
  score : Z;
  lives : Z;
  maxLives : Z;
  speed : float;
  collectedLetters : list Z;
  level : Z;
  laneCount : Z;
  gemsCollected : Z;
  distance : Z;
  multiplier : Z;
  multiplierEndTime : Z;
  hasDoubleJump : bool;
  hasImmortality : bool;
  isImmortalityActive : bool
}.

(** One property of a [Partial<GameState>] object literal. *)
Inductive Field :=
| Status (v : GameStatus)
| Score (v : Z)
| Lives (v : Z)
| MaxLives (v : Z)
| Speed (v : float)
| CollectedLetters (v : list Z)
| Level (v : Z)
| LaneCount (v : Z)
| GemsCollected (v : Z)
| Distance (v : Z)
| Multiplier (v : Z)
| MultiplierEndTime (v : Z)
| HasDoubleJump (v : bool)
| HasImmortality (v : bool)
| IsImmortalityActive (v : bool).

(** [Partial<GameState>]: the properties in the order they were
    written; a later write of the same property wins. *)
Definition Partial := list Field.

Definition assign (s : GameState) (f : Field) : GameState :=
  let 'mkState st sc li ml sp cl lv lc gc di mu me dj im ia := s in
  match f with
  | Status v              => mkState v  sc li ml sp cl lv lc gc di mu me dj im ia
  | Score v               => mkState st v  li ml sp cl lv lc gc di mu me dj im ia
  | Lives v               => mkState st sc v  ml sp cl lv lc gc di mu me dj im ia
  | MaxLives v            => mkState st sc li v  sp cl lv lc gc di mu me dj im ia
  | Speed v               => mkState st sc li ml v  cl lv lc gc di mu me dj im ia
  | CollectedLetters v    => mkState st sc li ml sp v  lv lc gc di mu me dj im ia
  | Level v               => mkState st sc li ml sp cl v  lc gc di mu me dj im ia
  | LaneCount v           => mkState st sc li ml sp cl lv v  gc di mu me dj im ia
  | GemsCollected v       => mkState st sc li ml sp cl lv lc v  di mu me dj im ia
  | Distance v            => mkState st sc li ml sp cl lv lc gc v  mu me dj im ia
  | Multiplier v          => mkState st sc li ml sp cl lv lc gc di v  me dj im ia
  | MultiplierEndTime v   => mkState st sc li ml sp cl lv lc gc di mu v  dj im ia
  | HasDoubleJump v       => mkState st sc li ml sp cl lv lc gc di mu me v  im ia
  | HasImmortality v      => mkState st sc li ml sp cl lv lc gc di mu me dj v  ia
  | IsImmortalityActive v => mkState st sc li ml sp cl lv lc gc di mu me dj im v
  end.

(** [{...state, ...partial}]. *)
Definition merge (s : GameState) (p : Partial) : GameState :=
  fold_left assign p s.

(** [updates.score], [undefined] when the property was never written. *)
Fixpoint score_of (p : Partial) : option Z :=
  match p with
  | [] => None
  | f :: p' =>
      match score_of p', f with
      | Some v, _ => Some v
      | None, Score v => Some v
      | None, _ => None
      end
  end.

(** [x || 0] on an optional integer. *)
Definition or_zero (o : option Z) : Z :=
  match o with Some v => v | None => 0 end.

(** A callback registered with [setTimeout]: the instant (in ms) at
    which it becomes due and the partial state it passes to [set]. *)
Record Timer := mkTimer { due : Z; callback : Partial }.

(** What the store's actions can observe and change: the store itself,
    the wall clock read by [Date.now()], and the queue of pending
    [setTimeout] callbacks (kept in firing order). *)
Record Runtime := mkRuntime {
  store : GameState;
  clock : Z;
  timers : list Timer
}.

(** State monad of the actions. *)
Definition M (A : Type) : Type := Runtime -> A * Runtime.

Definition ret {A} (a : A) : M A := fun r => (a, r).

Definition bind {A B} (m : M A) (k : A -> M B) : M B :=
  fun r => let (a, r') := m r in k a r'.

Declare Scope action_scope.
Delimit Scope action_scope with action.
Notation "x <- m ;; k" := (bind m (fun x => k))
  (at level 61, m at next level, right associativity) : action_scope.
Notation "m ;; k" := (bind m (fun _ => k))
  (at level 61, right associativity) : action_scope.
Local Open Scope action_scope.

Definition exec {A} (m : M A) (r : Runtime) : Runtime := snd (m r).
Definition result {A} (m : M A) (r : Runtime) : A := fst (m r).

(** zustand's [get()] and [set(partial)] / [set(state => partial)]. *)
Definition get : M GameState := fun r => (store r, r).

Definition set (p : Partial) : M unit :=
  fun r => (tt, mkRuntime (merge (store r) p) (clock r) (timers r)).

Definition set_with (f : GameState -> Partial) : M unit :=
  fun r => (tt, mkRuntime (merge (store r) (f (store r))) (clock r) (timers r)).

Definition Date_now : M Z := fun r => (clock r, r).

(** Queue insertion of [setTimeout]: after every pending callback
    that is due no later, so callbacks with equal due times fire in
    registration order. *)
Fixpoint enqueue (t : Timer) (q : list Timer) : list Timer :=
  match q with
  | [] => [t]
  | u :: q' => if due u <=? due t then u :: enqueue t q' else t :: q
  end.

Definition setTimeout (cb : Partial) (ms : Z) : M unit :=
  fun r => (tt, mkRuntime (store r) (clock r)
                          (enqueue (mkTimer (clock r + ms) cb) (timers r))).

Definition GEMINI_TARGET : list string :=
  ["G"; "E"; "M"; "I"; "N"; "I"]%string.
Definition MAX_LEVEL : Z := 3.

(** [Array.prototype.includes] on a [number[]]. *)
Definition includes (l : list Z) (x : Z) : bool := existsb (Z.eqb x) l.

(** The initial state of the store ([create] call). *)
Definition initialState : GameState :=
  mkState MENU 0 3 3 0%float [] 1 3 0 0 1 0 false false false.

Inductive ItemType := DOUBLE_JUMP | MAX_LIFE | HEAL | IMMORTAL.

Section Actions.
Context {K : Constants}.

Definition startGame : M unit :=
  set [ Status PLAYING; Score 0; Lives 3; MaxLives 3;
        Speed RUN_SPEED_BASE; CollectedLetters []; Level 1;
        LaneCount 3; GemsCollected 0; Distance 0; Multiplier 1;
        MultiplierEndTime 0; HasDoubleJump false;
        HasImmortality false; IsImmortalityActive false ].

Definition restartGame : M unit :=
  set [ Status PLAYING; Score 0; Lives 3; MaxLives 3;
        Speed RUN_SPEED_BASE; CollectedLetters []; Level 1;
        LaneCount 3; GemsCollected 0; Distance 0; Multiplier 1;
        MultiplierEndTime 0; HasDoubleJump false;
        HasImmortality false; IsImmortalityActive false ].

Definition takeDamage : M unit :=
  s <- get ;;
  if isImmortalityActive s then ret tt
  else
    set [ Multiplier 1; MultiplierEndTime 0 ] ;;
    if lives s >? 1 then set [ Lives (lives s - 1) ]
    else set [ Lives 0; Status GAME_OVER; Speed 0%float ].

Definition addScore (amount : Z) : M unit :=
  set_with (fun state => [ Score (score state + amount) ]).

Definition tickCombo : M unit :=
  s <- get ;;
  if GameStatus_eqb (status s) PLAYING && (multiplier s >? 1) then
    now <- Date_now ;;
    if now >? multiplierEndTime s then set [ Multiplier 1 ] else ret tt
  else ret tt.

(** [Date.now()] is read inside the callback passed to [set], which
    zustand runs at once on the current state. *)
Definition collectGem (value : Z) : M unit :=
  now <- Date_now ;;
  set_with (fun state =>
    let isComboActive := now <? multiplierEndTime state in
    let newMultiplier :=
      if isComboActive then Z.min (multiplier state + 1) MAX_MULTIPLIER
      else 1 in
    let newEndTime := now + COMBO_WINDOW_MS in
    [ Score (score state + value * newMultiplier);
      GemsCollected (gemsCollected state + 1);
      Multiplier newMultiplier;
      MultiplierEndTime newEndTime ]).

Definition setDistance (dist : Z) : M unit := set [ Distance dist ].

Definition advanceLevel : M unit :=
  s <- get ;;
  let nextLevel := level s + 1 in
  let speedIncrease := (RUN_SPEED_BASE * 0.40)%float in
  let newSpeed := (speed s + speedIncrease)%float in
  set [ Level nextLevel;
        LaneCount (Z.min (laneCount s + 2) 9);
        Status PLAYING;
        Speed newSpeed;
        CollectedLetters [] ].

Definition collectLetter (index : Z) : M unit :=
  s <- get ;;
  now <- Date_now ;;
  let isComboActive := now <? multiplierEndTime s in
  let newMultiplier :=
    if isComboActive then Z.min (multiplier s + 1) MAX_MULTIPLIER
    else 1 in
  let newEndTime := now + COMBO_WINDOW_MS in
  let letterScore := 500 * newMultiplier in
  s' <- get ;;
  let updates : Partial :=
    [ Score (score s' + letterScore);
      Multiplier newMultiplier;
      MultiplierEndTime newEndTime ] in
  if negb (includes (collectedLetters s) index) then
    let newLetters := collectedLetters s ++ [index] in
    let speedIncrease := (RUN_SPEED_BASE * 0.10)%float in
    let nextSpeed := (speed s + speedIncrease)%float in
    let updates := updates ++ [ CollectedLetters newLetters ] in
    let updates := updates ++ [ Speed nextSpeed ] in
    if (List.length newLetters =? List.length GEMINI_TARGET)%nat then
      if level s <? MAX_LEVEL then
        (* get().advanceLevel(); return {}; -- [updates] is dropped *)
        advanceLevel
      else
        let updates := updates ++ [ Status VICTORY ] in
        let updates :=
          updates ++ [ Score (or_zero (score_of updates) + 5000) ] in
        set updates
    else set updates
  else set updates.

Definition openShop : M unit := set [ Status SHOP ].

Definition closeShop : M unit := set [ Status PLAYING ].

Definition buyItem (type : ItemType) (cost : Z) : M bool :=
  s <- get ;;
  if score s >=? cost then
    set [ Score (score s - cost) ] ;;
    match type with
    | DOUBLE_JUMP => set [ HasDoubleJump true ]
    | MAX_LIFE => set [ MaxLives (maxLives s + 1); Lives (lives s + 1) ]
    | HEAL => set [ Lives (Z.min (lives s + 1) (maxLives s)) ]
    | IMMORTAL => set [ HasImmortality true ]
    end ;;
    ret true
  else ret false.

Definition activateImmortality : M unit :=
  s <- get ;;
  if hasImmortality s && negb (isImmortalityActive s) then
    set [ IsImmortalityActive true ] ;;
    setTimeout [ IsImmortalityActive false ] 5000
  else ret tt.

Definition setStatus (st : GameStatus) : M unit := set [ Status st ].

Definition increaseLevel : M unit :=
  set_with (fun state => [ Level (level state + 1) ]).

End Actions.

End Store.

(* ================================================================== *)
(** ** The host: calls into the store and the passage of time          *)
(* ================================================================== *)

Module Host.
Import Store.

(** A call of one of the store's actions. *)
Inductive Call :=
| StartGame
| RestartGame
| TakeDamage
| AddScore (amount : Z)
| CollectGem (value : Z)
| CollectLetter (index : Z)
| SetStatus (st : GameStatus)
| SetDistance (dist : Z)
| TickCombo
| BuyItem (type : ItemType) (cost : Z)
| AdvanceLevel
| OpenShop
| CloseShop
| ActivateImmortality
| IncreaseLevel.

Definition call {K : Constants} (c : Call) : M unit :=
  match c with
  | StartGame => startGame
  | RestartGame => restartGame
  | TakeDamage => takeDamage
  | AddScore amount => addScore amount
  | CollectGem value => collectGem value
  | CollectLetter index => collectLetter index
  | SetStatus st => setStatus st
  | SetDistance dist => setDistance dist
  | TickCombo => tickCombo
  | BuyItem type cost => bind (buyItem type cost) (fun _ => ret tt)
  | AdvanceLevel => advanceLevel
  | OpenShop => openShop
  | CloseShop => closeShop
  | ActivateImmortality => activateImmortality
  | IncreaseLevel => increaseLevel
  end.

(** The event loop runs the pending callbacks that are due, in queue
    order; each callback here is a [set(partial)]. *)
Fixpoint run_due (target : Z) (q : list Timer) (s : GameState)
  : GameState * list Timer :=
  match q with
  | [] => (s, [])
  | t :: q' =>
      if due t <=? target then run_due target q' (merge s (callback t))
      else (s, q)
  end.

(** [ms] milliseconds pass with no call into the store. *)
Definition elapse (ms : Z) : M unit :=
  fun r =>
    let target := clock r + ms in
    let (s, q) := run_due target (timers r) (store r) in
    (tt, mkRuntime s target q).

Inductive Step :=
| Do (c : Call)
| Wait (ms : Z).

Definition step {K : Constants} (e : Step) : M unit :=
  match e with
  | Do c => call c
  | Wait ms => elapse ms
  end.

Definition run {K : Constants} (es : list Step) (r : Runtime) : Runtime :=
  fold_left (fun r e => exec (step e) r) es r.

(** The runtime at page load: the store as [create] built it, the
    clock at [t0], no pending callback. *)
Definition boot (t0 : Z) : Runtime := mkRuntime initialState t0 [].

(** The status graph of the specification. *)
Definition edge (a b : GameStatus) : bool :=
  match a, b with
  | MENU, PLAYING
  | PLAYING, SHOP | PLAYING, GAME_OVER | PLAYING, VICTORY
  | SHOP, PLAYING
  | GAME_OVER, PLAYING
  | VICTORY, PLAYING => true
  | _, _ => false
  end.

(** The calls that can set SHOP, GAME_OVER or VICTORY; the simulation
    makes them from a frame, which runs only while status is PLAYING. *)
Definition in_run_only (c : Call) : bool :=
  match c with
  | OpenShop | TakeDamage | CollectLetter _ => true
  | _ => false
  end.

Definition is_setStatus (c : Call) : bool :=
  match c with SetStatus _ => true | _ => false end.

(** A pickup, as the combo rule sees it. *)
Inductive Pickup :=
| Gem (value : Z)
| Letter (index : Z).

Definition pickup {K : Constants} (p : Pickup) : M unit :=
  match p with
  | Gem value => collectGem value
  | Letter index => collectLetter index
  end.

(** The multiplier the combo rule prescribes for a pickup made now. *)
Definition comboMultiplier {K : Constants} (r : Runtime) : Z :=
  if clock r <? multiplierEndTime (store r)
  then Z.min (multiplier (store r) + 1) MAX_MULTIPLIER
  else 1.

(** [collectLetter(index)] would complete the word: [index] is new
    and five letters are already held. *)
Definition completes (s : GameState) (index : Z) : bool :=
  negb (includes (collectedLetters s) index)
  && (List.length (collectedLetters s) =? 5)%nat.

(** A run in progress at [level] holding the letters 0..4, with the
    given score, multiplier and combo window, observed at [now]. *)
Definition fiveLetters (level sc mult endTime now : Z) : Runtime :=
  mkRuntime
    (mkState PLAYING sc 3 3 22.5%float [0; 1; 2; 3; 4] level
             (Z.min (3 + 2 * (level - 1)) 9) 0 0 mult endTime
             false false false)
    now [].

(** A sample configuration for concrete runs. *)
Definition sample : Constants :=
  {| RUN_SPEED_BASE := 22.5%float;
     COMBO_WINDOW_MS := 2000;
     MAX_MULTIPLIER := 5;
     REMOVE_DISTANCE := 20%float |}.

(** A run that reaches the last letter of the first level: the letters
    0..4 picked up 3000 ms apart (each outside the previous combo
    window), then a gem 100 ms after the fifth letter, then 100 ms
    more. *)
Definition untilLastLetter : list Step :=
  [ Do StartGame;
    Wait 3000; Do (CollectLetter 0);
    Wait 3000; Do (CollectLetter 1);
    Wait 3000; Do (CollectLetter 2);
    Wait 3000; Do (CollectLetter 3);
    Wait 3000; Do (CollectLetter 4);
    Wait 100; Do (CollectGem 50);
    Wait 100 ].

End Host.

(* ================================================================== *)
(** ** The level manager: the per-frame object loop                    *)
(* ================================================================== *)

Module LevelManager.
Import Store.

(** [ObjectType] and the shape of [GameObject], as the level manager
    uses them. *)
Inductive ObjectType :=
| OBSTACLE | GEM | LETTER | ALIEN | MISSILE | SHOP_PORTAL | BOSS | BOSS_BEAM.

Inductive BeamState := WARNING | ACTIVE.

(** Object identifiers: the literal ['THE_BOSS'] or the n-th result
    of [uuidv4()]. *)
Inductive ObjectId := THE_BOSS | Uuid (n : nat).

Definition Vec3 : Type := float * float * float.
Definition vx (v : Vec3) : float := fst (fst v).
Definition vy (v : Vec3) : float := snd (fst v).
Definition vz (v : Vec3) : float := snd v.

Record GameObject := mkObject {
  id : ObjectId;
  type : ObjectType;
  position : Vec3;
  active : bool;
  color : option string;
  value : option string;
  points : option Z;
  targetIndex : option Z;
  hasFired : option bool;
  attackTimer : option float;
  beamState : option BeamState;
  beamTimer : option float;
  beamLane : option Z
}.

Definition with_z (z : float) (o : GameObject) : GameObject :=
  mkObject (id o) (type o) (vx (position o), vy (position o), z) (active o)
           (color o) (value o) (points o) (targetIndex o) (hasFired o)
           (attackTimer o) (beamState o) (beamTimer o) (beamLane o).

Definition with_active (b : bool) (o : GameObject) : GameObject :=
  mkObject (id o) (type o) (position o) b
           (color o) (value o) (points o) (targetIndex o) (hasFired o)
           (attackTimer o) (beamState o) (beamTimer o) (beamLane o).

Definition with_hasFired (b : bool) (o : GameObject) : GameObject :=
  mkObject (id o) (type o) (position o) (active o)
           (color o) (value o) (points o) (targetIndex o) (Some b)
           (attackTimer o) (beamState o) (beamTimer o) (beamLane o).

Definition with_beamState (b : BeamState) (o : GameObject) : GameObject :=
  mkObject (id o) (type o) (position o) (active o)
           (color o) (value o) (points o) (targetIndex o) (hasFired o)
           (attackTimer o) (Some b) (beamTimer o) (beamLane o).

Definition with_beamTimer (t : float) (o : GameObject) : GameObject :=
  mkObject (id o) (type o) (position o) (active o)
           (color o) (value o) (points o) (targetIndex o) (hasFired o)
           (attackTimer o) (beamState o) (Some t) (beamLane o).

Definition ObjectType_eqb (a b : ObjectType) : bool :=
  match a, b with
  | OBSTACLE, OBSTACLE | GEM, GEM | LETTER, LETTER | ALIEN, ALIEN
  | MISSILE, MISSILE | SHOP_PORTAL, SHOP_PORTAL | BOSS, BOSS
  | BOSS_BEAM, BOSS_BEAM => true
  | _, _ => false
  end.

(** What a frame sends out: DOM events on [window] and audio cues. *)
Inductive Effect :=
| player_hit
| particle_burst (position : Vec3) (color : string)
| playGemCollect
| playLetterCollect.

(** [x > y] on doubles. *)
Definition gtb (x y : float) : bool := (y <? x)%float.

(** [Math.min] on two doubles. *)
Definition Math_min (x y : float) : float :=
  if is_nan x || is_nan y then nan
  else if (x <? y)%float then x
  else if (y <? x)%float then y
  else if get_sign x then x else y.

(** [t || 0] on an optional double: [undefined], [NaN] and both zeros
    are falsy. *)
Definition number_or_zero (t : option float) : float :=
  match t with
  | Some x => if is_nan x || is_zero x then 0%float else x
  | None => 0%float
  end.

(** [obj.points || 50]. *)
Definition points_or_50 (p : option Z) : Z :=
  match p with
  | Some v => if v =? 0 then 50 else v
  | None => 50
  end.

(** [obj.color || '#ffffff']. *)
Definition color_or_white (c : option string) : string :=
  match c with
  | Some EmptyString | None => "#ffffff"%string
  | Some s => s
  end.

(** [!obj.hasFired]. *)
Definition not_fired (h : option bool) : bool :=
  match h with Some b => negb b | None => true end.

Definition OBSTACLE_HEIGHT : float := 1.6%float.
Definition MISSILE_SPEED : float := 30%float.

(** The local variables of the loop over [currentObjects], together
    with what the loop body reaches outside itself. *)
Record Loop := mkLoop {
  keptObjects : list GameObject;
  newSpawns : list GameObject;
  hasChanges : bool;
  (** the objects iterated so far, as the loop body left them (the
      body mutates the objects of [objectsRef.current] in place) *)
  visited : list GameObject;
  dispatched : list Effect;
  runtime : Runtime;
  (** number of [uuidv4()] calls made *)
  uuids : nat
}.

Section Frame.
Context {K : Constants}.

(** The listeners of ['player-hit'] are registered by other
    components; [dispatchEvent] runs them synchronously. *)
Variable onPlayerHit : M unit.

Variables (safeDelta dist : float) (playerPos : Vec3).

Definition dispatch (e : Effect) (l : Loop) : Loop :=
  mkLoop (keptObjects l) (newSpawns l) (hasChanges l) (visited l)
         (dispatched l ++ [e])
         (match e with
          | player_hit => exec onPlayerHit (runtime l)
          | _ => runtime l
          end)
         (uuids l).

Definition act (m : M unit) (l : Loop) : Loop :=
  mkLoop (keptObjects l) (newSpawns l) (hasChanges l) (visited l)
         (dispatched l) (exec m (runtime l)) (uuids l).

Definition changed (l : Loop) : Loop :=
  mkLoop (keptObjects l) (newSpawns l) true (visited l)
         (dispatched l) (runtime l) (uuids l).

Definition spawn (o : GameObject) (l : Loop) : Loop :=
  mkLoop (keptObjects l) (newSpawns l ++ [o]) (hasChanges l) (visited l)
         (dispatched l) (runtime l) (S (uuids l)).

(** End of an iteration: [keptObjects.push(obj)] or not. *)
Definition finish (keep : bool) (obj : GameObject) (l : Loop) : Loop :=
  mkLoop (if keep then keptObjects l ++ [obj] else keptObjects l)
         (newSpawns l) (hasChanges l) (visited l ++ [obj])
         (dispatched l) (runtime l) (uuids l).

(** The [BOSS_BEAM] branch. *)
Definition updateBeam (obj : GameObject) (l : Loop) : Loop :=
  let t := (number_or_zero (beamTimer obj) + safeDelta)%float in
  let obj := with_beamTimer t obj in
  if (t <? 2.0)%float then
    let obj := with_beamState WARNING obj in
    finish true obj l
  else if (t <? 3.0)%float then
    let obj := with_beamState ACTIVE obj in
    let dx := abs (vx (position obj) - vx playerPos)%float in
    let l := if (dx <? 0.9)%float then dispatch player_hit l else l in
    finish true obj l
  else
    let obj := with_active false obj in
    let l := changed l in
    finish false obj l.

(** Alien AI. *)
Definition alienAI (obj : GameObject) (l : Loop) : GameObject * Loop :=
  if ObjectType_eqb (type obj) ALIEN && active obj
     && not_fired (hasFired obj) then
    if gtb (vz (position obj)) (-90)%float then
      let obj := with_hasFired true obj in
      let l :=
        spawn (mkObject (Uuid (uuids l)) MISSILE
                 (vx (position obj), 1.0%float,
                  (vz (position obj) + 2)%float)
                 true (Some "#ff0000"%string) None None None None None
                 None None None) l in
      let l := changed l in
      let l :=
        dispatch (particle_burst (position obj) "#ff00ff"%string) l in
      (obj, l)
    else (obj, l)
  else (obj, l).

(** Collision of an active object with the player; the boolean is
    [keep]. *)
Definition collide (prevZ : float) (obj : GameObject) (l : Loop)
  : GameObject * Loop * bool :=
  let zThreshold := 2.0%float in
  let inZZone :=
    (prevZ <? vz playerPos + zThreshold)%float
    && gtb (vz (position obj)) (vz playerPos - zThreshold)%float in
  if ObjectType_eqb (type obj) SHOP_PORTAL then
    let dz := abs (vz (position obj) - vz playerPos)%float in
    if (dz <? 2)%float then
      let l := act openShop l in
      let obj := with_active false obj in
      let l := changed l in
      (obj, l, false)
    else (obj, l, true)
  else if inZZone then
    let dx := abs (vx (position obj) - vx playerPos)%float in
    if (dx <? 0.9)%float then
      let isDamageSource :=
        ObjectType_eqb (type obj) OBSTACLE
        || ObjectType_eqb (type obj) ALIEN
        || ObjectType_eqb (type obj) MISSILE in
      if isDamageSource then
        let playerBottom := vy playerPos in
        let playerTop := (vy playerPos + 1.8)%float in
        let objBottom :=
          if ObjectType_eqb (type obj) OBSTACLE then 0%float
          else if ObjectType_eqb (type obj) MISSILE then 0.5%float
          else (vy (position obj) - 0.5)%float in
        let objTop :=
          if ObjectType_eqb (type obj) OBSTACLE then OBSTACLE_HEIGHT
          else if ObjectType_eqb (type obj) MISSILE then 1.5%float
          else (vy (position obj) + 0.5)%float in
        let isHit :=
          (playerBottom <? objTop)%float && gtb playerTop objBottom in
        if isHit then
          let l := dispatch player_hit l in
          let obj := with_active false obj in
          let l := changed l in
          let l :=
            if ObjectType_eqb (type obj) MISSILE then
              dispatch (particle_burst (position obj) "#ff4400"%string) l
            else l in
          (obj, l, true)
        else (obj, l, true)
      else
        let dy := abs (vy (position obj) - vy playerPos)%float in
        if (dy <? 2.5)%float then
          let l :=
            if ObjectType_eqb (type obj) GEM then
              dispatch playGemCollect
                (act (collectGem (points_or_50 (points obj))) l)
            else l in
          let l :=
            match ObjectType_eqb (type obj) LETTER, targetIndex obj with
            | true, Some index =>
                dispatch playLetterCollect (act (collectLetter index) l)
            | _, _ => l
            end in
          let l :=
            dispatch (particle_burst (position obj)
                        (color_or_white (color obj))) l in
          let obj := with_active false obj in
          let l := changed l in
          (obj, l, true)
        else (obj, l, true)
    else (obj, l, true)
  else (obj, l, true).

(** Standard movement for regular objects. *)
Definition updateRegular (obj : GameObject) (l : Loop) : Loop :=
  let moveAmount := dist in
  let moveAmount :=
    if ObjectType_eqb (type obj) MISSILE
    then (moveAmount + MISSILE_SPEED * safeDelta)%float
    else moveAmount in
  let prevZ := vz (position obj) in
  let obj := with_z (vz (position obj) + moveAmount)%float obj in
  let '(obj, l) := alienAI obj l in
  let '(obj, l, keep) :=
    if active obj then collide prevZ obj l else (obj, l, true) in
  let '(l, keep) :=
    if gtb (vz (position obj)) REMOVE_DISTANCE
    then (changed l, false) else (l, keep) in
  finish keep obj l.

(** The body of [for (const obj of currentObjects)]. *)
Definition updateObject (l : Loop) (obj : GameObject) : Loop :=
  match type obj with
  | BOSS => finish true obj l
  | BOSS_BEAM => updateBeam obj l
  | _ => updateRegular obj l
  end.

Definition updateObjects (currentObjects : list GameObject) (l : Loop)
  : Loop :=
  fold_left updateObject currentObjects l.

(** The loop's variables as they are initialised before the loop;
    [hasChanges] may already have been set by the boss logic. *)
Definition enter (hasChanges0 : bool) (rt : Runtime) (n : nat) : Loop :=
  mkLoop [] [] hasChanges0 [] [] rt n.

(** [objectsRef.current] at the end of the frame.  After the loop
    [newSpawns] is appended to [keptObjects]; the spawning logic
    then pushes [spawned] (possibly nothing) onto it, setting
    [hasChanges] when it does; [objectsRef.current] is replaced by
    [keptObjects] when [hasChanges], and otherwise stays the array
    the loop iterated over. *)
Definition commit (spawned : list GameObject) (l : Loop)
  : list GameObject :=
  let keptObjects := keptObjects l ++ newSpawns l ++ spawned in
  let hasChanges :=
    hasChanges l || negb (Nat.eqb (List.length spawned) 0) in
  if hasChanges then keptObjects else visited l.

End Frame.

(** [safeDelta] of a frame whose render delta is [delta]. *)
Definition clamp (delta : float) : float := Math_min delta 0.05%float.

(** The value the beam branch compares against 2.0 and 3.0: the
    beam's timer after this frame's increment. *)
Definition beamTime (safeDelta : float) (obj : GameObject) : float :=
  (number_or_zero (beamTimer obj) + safeDelta)%float.

(** The object loop of a frame rendered [delta] seconds after the
    previous one, with the store's [speed] as the component read it:
    [safeDelta = Math.min(delta, 0.05)] and [dist = speed * safeDelta].
    The frame has passed its guard (status is PLAYING) and has run
    [tickCombo()] and the boss logic: [currentObjects], [hasChanges0]
    and [rt] are the object array, the flag and the runtime at that
    point. *)
Definition frameLoop {K : Constants} (onPlayerHit : M unit)
    (speed delta : float) (playerPos : Vec3)
    (currentObjects : list GameObject)
    (hasChanges0 : bool) (rt : Runtime) (n : nat) : Loop :=
  let safeDelta := clamp delta in
  let dist := (speed * safeDelta)%float in
  updateObjects onPlayerHit safeDelta dist playerPos currentObjects
                (enter hasChanges0 rt n).

(** A beam whose timer is still below 3.0; true of any other object. *)
Definition beamLive (o : GameObject) : bool :=
  match type o, beamTimer o with
  | BOSS_BEAM, Some t => (t <? 3.0)%float
  | BOSS_BEAM, None => false
  | _, _ => true
  end.

Definition isBeam (o : GameObject) : bool := ObjectType_eqb (type o) BOSS_BEAM.

(** A beam on lane offset [x] whose timer reads [t], as the boss logic
    creates them (there with timer 0). *)
Definition beamAt (n : nat) (x t : float) : GameObject :=
  mkObject (Uuid n) BOSS_BEAM (x, 1%float, (-20)%float) true
           None None None None None None (Some WARNING) (Some t) (Some 0).

(** What holds of the loop's variables between two iterations. *)
Definition loop_invariant (l : Loop) : Prop :=
  Forall (fun o => beamLive o = true) (keptObjects l) /\
  Forall (fun o => type o = MISSILE) (newSpawns l) /\
  (hasChanges l = false ->
   visited l = keptObjects l /\ newSpawns l = []).

End LevelManager.

(* ================================================================== *)
(** ** Reachable runtimes                                              *)
(* ================================================================== *)

Module Reach.
Import Store Host.

(** The only callback the store ever registers. *)
Definition clears (t : Timer) : Prop :=
  callback t = [IsImmortalityActive false].

(** A queue as [setTimeout] builds it: clearing callbacks in firing
    order. *)
Definition queue_ok (q : list Timer) : Prop :=
  Forall clears q /\ StronglySorted (fun a b => due a <= due b) q.

(** What every action keeps true of the store. *)
Definition store_ok {K : Constants} (s : GameState) : Prop :=
  0 <= lives s <= maxLives s /\
  (1 <= MAX_MULTIPLIER -> 1 <= multiplier s <= MAX_MULTIPLIER) /\
  NoDup (collectedLetters s) /\
  Z.odd (laneCount s) = true /\
  3 <= laneCount s <= 9 /\
  1 <= level s.

Definition runtime_ok {K : Constants} (r : Runtime) : Prop :=
  store_ok (store r) /\ queue_ok (timers r).

(** Calls whose amounts are not negative. *)
Definition tame (e : Step) : bool :=
  match e with
  | Do (AddScore amount) => 0 <=? amount
  | Do (CollectGem value) => 0 <=? value
  | _ => true
  end.

(** Steps other than a direct [advanceLevel()] or [increaseLevel()]. *)
Definition by_letters (e : Step) : bool :=
  match e with
  | Do AdvanceLevel | Do IncreaseLevel => false
  | _ => true
  end.

(** Gems picked up one after the other: each pair is the time since
    the previous pickup and the gem's value. *)
Fixpoint gemChain (gems : list (Z * Z)) : list Step :=
  match gems with
  | [] => []
  | (gap, value) :: gems' =>
      Wait gap :: Do (CollectGem value) :: gemChain gems'
  end.

Definition within (window : Z) (gem : Z * Z) : Prop :=
  0 <= fst gem < window.

End Reach.

(* ================================================================== *)
(** ** Vocabulary for the object loop                                  *)
(* ================================================================== *)

Module LoopTerms.
Import Store LevelManager.

(** What the loop body never writes: everything but [position[2]],
    [active], [hasFired], [beamState] and [beamTimer]. *)
Definition sameObject (o o' : GameObject) : Prop :=
  id o' = id o /\
  type o' = type o /\
  vx (position o') = vx (position o) /\
  vy (position o') = vy (position o) /\
  color o' = color o /\
  value o' = value o /\
  points o' = points o /\
  targetIndex o' = targetIndex o /\
  attackTimer o' = attackTimer o /\
  beamLane o' = beamLane o.

(** [moveAmount] of a regular object. *)
Definition moveAmount (safeDelta dist : float) (o : GameObject) : float :=
  if ObjectType_eqb (type o) MISSILE
  then (dist + MISSILE_SPEED * safeDelta)%float
  else dist.

(** The object after [obj.position[2] += moveAmount]. *)
Definition moved (safeDelta dist : float) (o : GameObject) : GameObject :=
  with_z (vz (position o) + moveAmount safeDelta dist o)%float o.

(** [obj.position[2] > REMOVE_DISTANCE]. *)
Definition scrolledOut {K : Constants} (o : GameObject) : bool :=
  gtb (vz (position o)) REMOVE_DISTANCE.

(** The end of the loop body for an object that met nothing: it is
    kept unless it has scrolled out, which sets [hasChanges]. *)
Definition retire {K : Constants} (o : GameObject) (l : Loop) : Loop :=
  finish (negb (scrolledOut o)) o (if scrolledOut o then changed l else l).

(** [inZZone] for an object that was at [prevZ] before it moved. *)
Definition inZZone (playerPos : Vec3) (prevZ : float) (o : GameObject)
  : bool :=
  (prevZ <? vz playerPos + 2.0)%float
  && gtb (vz (position o)) (vz playerPos - 2.0)%float.

(** [dx < 0.9]. *)
Definition inLane (playerPos : Vec3) (o : GameObject) : bool :=
  (abs (vx (position o) - vx playerPos) <? 0.9)%float.

(** [dy < 2.5]. *)
Definition inReach (playerPos : Vec3) (o : GameObject) : bool :=
  (abs (vy (position o) - vy playerPos) <? 2.5)%float.

(** A regular object, neither the boss nor a beam. *)
Definition regular (o : GameObject) : bool :=
  negb (ObjectType_eqb (type o) BOSS)
  && negb (ObjectType_eqb (type o) BOSS_BEAM).

(** An obstacle on lane offset [x] at track position [z]. *)
Definition obstacleAt (n : nat) (x z : float) : GameObject :=
  mkObject (Uuid n) OBSTACLE (x, 0.8%float, z) true
           (Some "#ff0054"%string) None None None None None None None None.

(** A gem worth [points] on lane offset [x] at track position [z]. *)
Definition gemAt (n : nat) (x z : float) (pts : option Z) : GameObject :=
  mkObject (Uuid n) GEM (x, 1.2%float, z) true
           (Some "#00ffff"%string) None pts None None None None None None.

(** An alien on lane offset [x] at track position [z]. *)
Definition alienAt (n : nat) (x z : float) : GameObject :=
  mkObject (Uuid n) ALIEN (x, 1.5%float, z) true
           (Some "#00ff00"%string) None None None (Some false) None
           None None None.

(** The shop portal as the level-up transition creates it, at track
    position [z]. *)
Definition portalAt (n : nat) (z : float) : GameObject :=
  mkObject (Uuid n) SHOP_PORTAL (0%float, 0%float, z) true
           None None None None None None None None None.

End LoopTerms.

(* ================================================================== *)
(** ** The level manager: spawning and run transitions                 *)
(* ================================================================== *)

Module Spawning.
Import Store LevelManager.

(** Further constants imported from [./types], parameters like the
    others. *)
Class Layout := {
  SPAWN_DISTANCE : float;
  LANE_WIDTH : float;
  GEMINI_COLORS : list string
}.

(** The two JavaScript built-ins the level manager uses that have no
    counterpart among the kernel's float operations: [Math.pow] (called
    with an integer exponent) and [Math.floor] (whose result is stored
    in an integer field). *)
Class Numerics := {
  Math_pow : float -> Z -> float;
  Math_floor : float -> Z
}.

Definition BASE_LETTER_INTERVAL : float := 150%float.

Definition getLetterInterval {N : Numerics} (level : Z) : float :=
  (BASE_LETTER_INTERVAL * Math_pow 1.5%float (Z.max 0 (level - 1)))%float.

(** The local [target] of the spawning logic. *)
Definition target : list string :=
  ["G"; "E"; "M"; "I"; "N"; "I"]%string.

(** [target.map((_, i) => i)]. *)
Definition indices {A} (l : list A) : list Z :=
  map Z.of_nat (seq 0 (List.length l)).

(** [target.map((_, i) => i).filter(i => !collectedLetters.includes(i))]. *)
Definition availableIndices (collectedLetters : list Z) : list Z :=
  filter (fun i => negb (includes collectedLetters i)) (indices target).

(** [a[i]] for an index that is an integer: [undefined] out of range. *)
Definition at_index {A} (l : list A) (i : Z) : option A :=
  if i <? 0 then None else nth_error l (Z.to_nat i).

(** [Math.min(...zs)]. *)
Definition Math_min_all (zs : list float) : float :=
  fold_left Math_min zs infinity.

Definition isStatic (o : GameObject) : bool :=
  negb (ObjectType_eqb (type o) MISSILE)
  && negb (ObjectType_eqb (type o) BOSS)
  && negb (ObjectType_eqb (type o) BOSS_BEAM).

Definition furthestZ (keptObjects : list GameObject) : float :=
  let staticObjects := filter isStatic keptObjects in
  if (0 <? List.length staticObjects)%nat
  then Math_min_all (map (fun o => vz (position o)) staticObjects)
  else (-20)%float.

Definition minGap (speed : float) (level : Z) : float :=
  let bossActive := level =? 3 in
  let densityModifier := if bossActive then 1.5%float else 1.0%float in
  ((12 + speed * 0.4) * densityModifier)%float.

(** [spawnZ] when the spawning logic runs at all
    ([furthestZ > -SPAWN_DISTANCE]), [None] when it does not. *)
Definition spawnPoint {L : Layout} (keptObjects : list GameObject)
    (speed : float) (level : Z) : option float :=
  let furthest := furthestZ keptObjects in
  if gtb furthest (- SPAWN_DISTANCE)%float then
    Some (Math_min (furthest - minGap speed level)%float
                   (- SPAWN_DISTANCE)%float)
  else None.

(** The branch taken when a letter is due.  [lane] is what
    [getRandomLane] returned and [k] is
    [Math.floor(Math.random() * availableIndices.length)]; the result
    is the object pushed and the new [nextLetterDistance]. *)
Definition spawnDueLetter {L : Layout} {N : Numerics}
    (lane : float) (k : nat) (spawnZ : float) (level : Z)
    (collectedLetters : list Z) (nextLetterDistance : float) (uuid : nat)
  : GameObject * float :=
  let availableIndices := availableIndices collectedLetters in
  if (0 <? List.length availableIndices)%nat then
    let chosenIndex := nth_error availableIndices k in
    (mkObject (Uuid uuid) LETTER ((lane * LANE_WIDTH)%float, 1.0%float, spawnZ)
              true
              (match chosenIndex with
               | Some i => at_index GEMINI_COLORS i
               | None => None
               end)
              (match chosenIndex with
               | Some i => at_index target i
               | None => None
               end)
              None chosenIndex None None None None None,
     (nextLetterDistance + getLetterInterval level)%float)
  else
    (mkObject (Uuid uuid) GEM ((lane * LANE_WIDTH)%float, 1.2%float, spawnZ)
              true (Some "#00ffff"%string) None (Some 50) None None None
              None None None,
     nextLetterDistance).

(** Sample values for concrete runs. *)
Definition sampleLayout : Layout :=
  {| SPAWN_DISTANCE := 120%float;
     LANE_WIDTH := 2.2%float;
     GEMINI_COLORS :=
       ["#2979ff"; "#ff1744"; "#ffea00"; "#2979ff"; "#00e676";
        "#ff1744"]%string |}.

(** x^n by repeated multiplication, and the floor of a finite double. *)
Fixpoint powNat (x : float) (n : nat) : float :=
  match n with
  | O => 1%float
  | S n' => (x * powNat x n')%float
  end.

Definition floorZ (x : float) : Z :=
  match Prim2SF x with
  | S754_finite s m e =>
      let n := if s then Z.neg m else Z.pos m in
      if 0 <=? e then n * 2 ^ e else n / 2 ^ (- e)
  | _ => 0
  end.

Definition sampleNumerics : Numerics :=
  {| Math_pow := fun x n => powNat x (Z.to_nat n);
     Math_floor := floorZ |}.

End Spawning.

Module Transitions.
Import Store LevelManager Spawning.

(** The refs and the render counter of the level manager. *)
Record Refs := mkRefs {
  objectsRef : list GameObject;
  prevStatus : GameStatus;
  prevLevel : Z;
  distanceTraveled : float;
  nextLetterDistance : float;
  renderTrigger : nat;
  (** number of [uuidv4()] calls made *)
  uuidsMade : nat
}.

(** The component's refs at mount. *)
Definition mountRefs (status : GameStatus) (level : Z) : Refs :=
  mkRefs [] status level 0%float BASE_LETTER_INTERVAL 0 0.

Definition shopPortal (n : nat) : GameObject :=
  mkObject (Uuid n) SHOP_PORTAL (0%float, 0%float, (-100)%float) true
           None None None None None None None None None.

(** The effect "Handle resets and transitions", run with the [status]
    and [level] of the render that scheduled it. *)
Definition onTransition {L : Layout} {N : Numerics}
    (status : GameStatus) (level : Z) (refs : Refs) (rt : Runtime)
  : Refs * Runtime :=
  let isRestart :=
    GameStatus_eqb status PLAYING
    && GameStatus_eqb (prevStatus refs) GAME_OVER in
  let isMenuReset := GameStatus_eqb status MENU in
  let isLevelUp :=
    negb (level =? prevLevel refs) && GameStatus_eqb status PLAYING in
  let isVictoryReset :=
    GameStatus_eqb status PLAYING
    && GameStatus_eqb (prevStatus refs) VICTORY in
  if isMenuReset || isRestart || isVictoryReset then
    (mkRefs [] status level 0%float (getLetterInterval 1)
            (S (renderTrigger refs)) (uuidsMade refs),
     rt)
  else if isLevelUp && (level >? 1) then
    (mkRefs (filter (fun obj => gtb (vz (position obj)) (-80)%float)
                    (objectsRef refs)
             ++ [shopPortal (uuidsMade refs)])
            status level (distanceTraveled refs)
            (distanceTraveled refs - SPAWN_DISTANCE
             + getLetterInterval level)%float
            (S (renderTrigger refs)) (S (uuidsMade refs)),
     rt)
  else if GameStatus_eqb status GAME_OVER || GameStatus_eqb status VICTORY
  then
    (mkRefs (objectsRef refs) status level (distanceTraveled refs)
            (nextLetterDistance refs) (renderTrigger refs) (uuidsMade refs),
     exec (setDistance (Math_floor (distanceTraveled refs))) rt)
  else
    (mkRefs (objectsRef refs) status level (distanceTraveled refs)
            (nextLetterDistance refs) (renderTrigger refs) (uuidsMade refs),
     rt).

End Transitions.

(* ================================================================== *)
(** ** Properties of the store                                         *)
(* ================================================================== *)

Import Store Host.

Lemma includes_false_iff (l : list Z) (x : Z) :
  includes l x = false <-> ~ In x l.
Proof.
  unfold includes. split.
  - intros H Hin.
    assert (E : existsb (Z.eqb x) l = true).
    { apply existsb_exists. exists x. split; [exact Hin | apply Z.eqb_refl]. }
    congruence.
  - intros H. destruct (existsb (Z.eqb x) l) eqn:E; [|reflexivity].
    apply existsb_exists in E. destruct E as [y [Hin Hy]].
    apply Z.eqb_eq in Hy. subst y. contradiction.
Qed.

Lemma length_snoc_eqb {A} (l : list A) (x : A) (n : nat) :
  (List.length (l ++ [x]) =? S n)%nat = (List.length l =? n)%nat.
Proof. rewrite length_app, Nat.add_comm. reflexivity. Qed.

(** Unfolds an action applied to a runtime whose store is a constructor. *)
Ltac open_store r :=
  let s := fresh "s" in
  destruct r as [s ? ?]; destruct s;
  cbn -[Z.add Z.sub Z.mul Z.min Z.ltb Z.leb Z.gtb Z.geb] in *.

Section StoreFacts.
Context {K : Constants}.

(** The call that collects the sixth letter below the last level is
    nothing but [advanceLevel]: the early return drops [updates]. *)
Lemma collectLetter_completing (r : Runtime) (index : Z) :
  List.length (collectedLetters (store r)) = 5%nat ->
  ~ In index (collectedLetters (store r)) ->
  level (store r) < MAX_LEVEL ->
  collectLetter index r = advanceLevel r.
Proof.
  intros Hlen Hnin Hlvl. apply includes_false_iff in Hnin.
  apply Z.ltb_lt in Hlvl.
  unfold collectLetter, bind, get, Date_now.
  rewrite Hnin. cbn [negb]. unfold GEMINI_TARGET.
  cbn [List.length]. rewrite length_snoc_eqb, Hlen. cbn [Nat.eqb].
  rewrite Hlvl. reflexivity.
Qed.

(** Every other call of [collectLetter] applies the combo rule to
    score, multiplier and window; the call that completes the word
    on the last level adds the victory bonus on top. *)
Lemma collectLetter_combo (r : Runtime) (index : Z) :
  (completes (store r) index = true -> MAX_LEVEL <= level (store r)) ->
  let r' := exec (collectLetter index) r in
  multiplier (store r') = comboMultiplier r /\
  multiplierEndTime (store r') = clock r + COMBO_WINDOW_MS /\
  score (store r') =
    score (store r) + 500 * comboMultiplier r
    + (if completes (store r) index then 5000 else 0).
Proof.
  intros H r'. subst r'. revert H. unfold comboMultiplier, completes.
  unfold exec, collectLetter, bind, get, Date_now.
  destruct (includes (collectedLetters (store r)) index) eqn:Hinc; cbn [negb andb].
  - intros _. open_store r. repeat split; lia.
  - unfold GEMINI_TARGET. cbn [List.length]. rewrite length_snoc_eqb.
    destruct (List.length (collectedLetters (store r)) =? 5)%nat eqn:Hlen.
    + intros H. specialize (H eq_refl).
      destruct (level (store r) <? MAX_LEVEL) eqn:Hlvl;
        [apply Z.ltb_lt in Hlvl; lia|].
      open_store r. repeat split; lia.
    + intros _. open_store r. repeat split; lia.
Qed.

Lemma collectGem_combo (r : Runtime) (value : Z) :
  let r' := exec (collectGem value) r in
  multiplier (store r') = comboMultiplier r /\
  multiplierEndTime (store r') = clock r + COMBO_WINDOW_MS /\
  score (store r') = score (store r) + value * comboMultiplier r /\
  gemsCollected (store r') = gemsCollected (store r) + 1.
Proof. unfold comboMultiplier. open_store r. auto. Qed.

End StoreFacts.

(** *** Letters, levels and victory *)

(** C1.  The claim asks every call of [collectLetter] to add
    500 x newMultiplier to the score and to refresh the combo window,
    the level-completing call included.  On that call (five letters
    held, a sixth new index, level below MAX_LEVEL) the code returns
    right after [advanceLevel()], before [set(updates)]: score,
    multiplier and multiplierEndTime keep their old values. *)
Theorem collectLetter_completing_skips_combo
  {K : Constants} (r : Runtime) (index : Z) :
  List.length (collectedLetters (store r)) = 5%nat ->
  ~ In index (collectedLetters (store r)) ->
  level (store r) < MAX_LEVEL ->
  let r' := exec (collectLetter index) r in
  score (store r') = score (store r) /\
  multiplier (store r') = multiplier (store r) /\
  multiplierEndTime (store r') = multiplierEndTime (store r).
Proof.
  intros Hlen Hnin Hlvl r'. subst r'. unfold exec.
  rewrite (collectLetter_completing r index Hlen Hnin Hlvl).
  open_store r. auto.
Qed.

Lemma collectLetter_completing_skips_combo_witness :
  let K := sample in
  let r := run untilLastLetter (boot 0) in
  let r' := exec (collectLetter 5) r in
  (score (store r') = 2600 /\ multiplier (store r') = 2
   /\ multiplierEndTime (store r') = 17100)
  /\ score (store r) + 500 * comboMultiplier r = 4100
  /\ clock r + COMBO_WINDOW_MS = 17200.
Proof.
  split.
  - apply (@collectLetter_completing_skips_combo sample
             (@run sample untilLastLetter (boot 0)) 5).
    + reflexivity.
    + cbn. lia.
    + reflexivity.
  - split; reflexivity.
Defined.

(** C2.  From any state with level < MAX_LEVEL holding five letters,
    [collectLetter] on an index not yet held does exactly what one
    [advanceLevel] does: level + 1, laneCount + 2 capped at 9, no
    letters, speed + RUN_SPEED_BASE * 0.40 (in double arithmetic), and
    status PLAYING.  (Neither the distinctness of the five letters nor
    the initial status is needed.) *)
Theorem collectLetter_sixth_letter_advances_level
  {K : Constants} (r : Runtime) (index : Z) :
  List.length (collectedLetters (store r)) = 5%nat ->
  ~ In index (collectedLetters (store r)) ->
  level (store r) < MAX_LEVEL ->
  let r' := exec (collectLetter index) r in
  r' = exec advanceLevel r /\
  level (store r') = level (store r) + 1 /\
  laneCount (store r') = Z.min (laneCount (store r) + 2) 9 /\
  collectedLetters (store r') = [] /\
  speed (store r') = (speed (store r) + RUN_SPEED_BASE * 0.40)%float /\
  status (store r') = PLAYING.
Proof.
  intros Hlen Hnin Hlvl r'. subst r'. unfold exec.
  rewrite (collectLetter_completing r index Hlen Hnin Hlvl).
  open_store r. repeat split.
Qed.

Lemma collectLetter_sixth_letter_advances_level_witness :
  let K := sample in
  let r := fiveLetters 2 700 3 1500 1000 in
  let r' := exec (collectLetter 5) r in
  r' = exec advanceLevel r /\
  level (store r') = 2 + 1 /\
  laneCount (store r') = Z.min (5 + 2) 9 /\
  collectedLetters (store r') = [] /\
  speed (store r') = (22.5 + 22.5 * 0.40)%float /\
  status (store r') = PLAYING.
Proof.
  apply (@collectLetter_sixth_letter_advances_level sample
           (fiveLetters 2 700 3 1500 1000) 5).
  - reflexivity.
  - cbn. lia.
  - reflexivity.
Defined.

(** C3.  From any state with level = MAX_LEVEL holding five letters,
    [collectLetter] on an index not yet held sets status to VICTORY and
    raises the score by 5000 plus the letter's combo score
    500 x newMultiplier. *)
Theorem collectLetter_sixth_letter_wins
  {K : Constants} (r : Runtime) (index : Z) :
  List.length (collectedLetters (store r)) = 5%nat ->
  ~ In index (collectedLetters (store r)) ->
  level (store r) = MAX_LEVEL ->
  let r' := exec (collectLetter index) r in
  status (store r') = VICTORY /\
  score (store r') = score (store r) + 500 * comboMultiplier r + 5000.
Proof.
  intros Hlen Hnin Hlvl r'. subst r'.
  assert (Hc : completes (store r) index = true).
  { unfold completes. apply includes_false_iff in Hnin.
    rewrite Hnin, Hlen. reflexivity. }
  split.
  - apply includes_false_iff in Hnin.
    unfold exec, collectLetter, bind, get, Date_now.
    rewrite Hnin. cbn [negb]. unfold GEMINI_TARGET. cbn [List.length].
    rewrite length_snoc_eqb, Hlen, Hlvl. cbn [Nat.eqb].
    open_store r. reflexivity.
  - destruct (collectLetter_combo r index) as (_ & _ & Hs).
    + intros _. lia.
    + rewrite Hs, Hc. reflexivity.
Qed.

Lemma collectLetter_sixth_letter_wins_witness :
  let K := sample in
  let r := fiveLetters 3 700 3 1500 1000 in
  let r' := exec (collectLetter 5) r in
  status (store r') = VICTORY /\
  score (store r') = 700 + 500 * comboMultiplier r + 5000.
Proof.
  apply (@collectLetter_sixth_letter_wins sample
           (fiveLetters 3 700 3 1500 1000) 5).
  - reflexivity.
  - cbn. lia.
  - reflexivity.
Defined.

(** *** The combo rule *)

(** Any pickup other than the level-completing letter follows the combo
    rule: multiplier + 1 capped at MAX_MULTIPLIER inside the window, 1
    at or after its end, and a window refreshed to now + COMBO_WINDOW_MS. *)
Lemma pickup_combo {K : Constants} (r : Runtime) (p : Pickup) :
  match p with
  | Gem _ => True
  | Letter index =>
      completes (store r) index = true -> MAX_LEVEL <= level (store r)
  end ->
  let r' := exec (pickup p) r in
  (clock r < multiplierEndTime (store r) ->
   multiplier (store r') = Z.min (multiplier (store r) + 1) MAX_MULTIPLIER) /\
  (multiplierEndTime (store r) <= clock r -> multiplier (store r') = 1) /\
  multiplierEndTime (store r') = clock r + COMBO_WINDOW_MS.
Proof.
  intros H r'.
  assert (Hm : multiplier (store r') = comboMultiplier r
               /\ multiplierEndTime (store r') = clock r + COMBO_WINDOW_MS).
  { subst r'. destruct p as [value | index]; cbn [pickup].
    - destruct (collectGem_combo r value) as (? & ? & _). auto.
    - destruct (collectLetter_combo r index H) as (? & ? & _). auto. }
  destruct Hm as [Hm He]. rewrite Hm, He. unfold comboMultiplier.
  repeat split.
  - intros Hlt. apply Z.ltb_lt in Hlt. rewrite Hlt. reflexivity.
  - intros Hge. apply Z.ltb_ge in Hge. rewrite Hge. reflexivity.
Qed.

(** C4.  The claim asks every pickup inside the window to raise the
    multiplier by one (up to MAX_MULTIPLIER) and every pickup at or
    after the window's end to reset it to 1.  The letter that completes
    the word below MAX_LEVEL does neither: it leaves multiplier and
    multiplierEndTime as they were. *)
Theorem completing_letter_breaks_combo
  {K : Constants} (r : Runtime) (index : Z) :
  List.length (collectedLetters (store r)) = 5%nat ->
  ~ In index (collectedLetters (store r)) ->
  level (store r) < MAX_LEVEL ->
  let r' := exec (pickup (Letter index)) r in
  (clock r < multiplierEndTime (store r) ->
   multiplier (store r) < MAX_MULTIPLIER ->
   multiplier (store r') <> multiplier (store r) + 1) /\
  (multiplierEndTime (store r) <= clock r ->
   multiplier (store r) <> 1 ->
   multiplier (store r') <> 1) /\
  (COMBO_WINDOW_MS <> multiplierEndTime (store r) - clock r ->
   multiplierEndTime (store r') <> clock r + COMBO_WINDOW_MS).
Proof.
  intros Hlen Hnin Hlvl r'. subst r'. cbn [pickup]. unfold exec.
  rewrite (collectLetter_completing r index Hlen Hnin Hlvl).
  open_store r. repeat split; intros; lia.
Qed.

Lemma completing_letter_breaks_combo_witness :
  let K := sample in
  let inside := run untilLastLetter (boot 0) in
  let late := run (untilLastLetter ++ [Wait 2000]) (boot 0) in
  (clock inside = 15200 /\ multiplier (store inside) = 2
   /\ multiplierEndTime (store inside) = 17100 /\ clock late = 17200)
  /\ (multiplier (store (exec (pickup (Letter 5)) inside)) <> 2 + 1
      /\ multiplierEndTime (store (exec (pickup (Letter 5)) inside))
         <> 15200 + 2000)
  /\ multiplier (store (exec (pickup (Letter 5)) late)) <> 1.
Proof.
  split; [repeat split|]. split.
  - destruct (@completing_letter_breaks_combo sample
                (@run sample untilLastLetter (boot 0)) 5) as (H1 & _ & H3).
    + reflexivity.
    + cbn. lia.
    + reflexivity.
    + split; [apply H1 | apply H3]; cbn; lia.
  - destruct (@completing_letter_breaks_combo sample
                (@run sample (untilLastLetter ++ [Wait 2000]) (boot 0)) 5)
      as (_ & H2 & _).
    + reflexivity.
    + cbn. lia.
    + reflexivity.
    + apply H2; cbn; lia.
Defined.

(** *** Damage *)

Lemma takeDamage_lives_nonneg (r : Runtime) :
  0 <= lives (store r) -> 0 <= lives (store (exec takeDamage r)).
Proof.
  unfold exec, takeDamage, bind, get.
  destruct (isImmortalityActive (store r)) eqn:Hi; [auto|].
  destruct (lives (store r) >? 1) eqn:Hl; open_store r; lia.
Qed.

(** C5.  [takeDamage] changes nothing while immortality is active;
    otherwise it sets multiplier to 1 and multiplierEndTime to 0, and
    either takes one life (lives > 1) or sets lives = 0,
    status = GAME_OVER, speed = 0; however often it is called, lives
    does not fall below 0. *)
Theorem takeDamage_spec (r : Runtime) :
  let r' := exec takeDamage r in
  (isImmortalityActive (store r) = true -> r' = r) /\
  (isImmortalityActive (store r) = false ->
   multiplier (store r') = 1 /\
   multiplierEndTime (store r') = 0 /\
   (1 < lives (store r) ->
    store r' =
      merge (store r)
        [Multiplier 1; MultiplierEndTime 0; Lives (lives (store r) - 1)]) /\
   (lives (store r) <= 1 ->
    store r' =
      merge (store r)
        [Multiplier 1; MultiplierEndTime 0; Lives 0; Status GAME_OVER;
         Speed 0%float])) /\
  (forall n : nat,
     0 <= lives (store r) ->
     0 <= lives (store (Nat.iter n (exec takeDamage) r))).
Proof.
  intros r'. subst r'. split; [|split].
  - intros Hi. unfold exec, takeDamage, bind, get. rewrite Hi.
    reflexivity.
  - intros Hi. unfold exec, takeDamage, bind, get. rewrite Hi.
    destruct (lives (store r) >? 1) eqn:Hl.
    + apply Z.gtb_gt in Hl. open_store r.
      repeat split; intros; try reflexivity; lia.
    + assert (Hle : lives (store r) <= 1).
      { destruct (Z.gtb_spec (lives (store r)) 1); [discriminate | lia]. }
      open_store r. repeat split; intros; try reflexivity; lia.
  - intros n Hl. induction n as [|n IH]; cbn [Nat.iter].
    + exact Hl.
    + apply takeDamage_lives_nonneg. exact IH.
Qed.

Lemma takeDamage_spec_witness :
  let K := sample in
  let r := exec startGame (boot 0) in
  lives (store (Nat.iter 2 (exec takeDamage) r)) = 1 /\
  status (store (Nat.iter 3 (exec takeDamage) r)) = GAME_OVER /\
  0 <= lives (store (Nat.iter 7 (exec takeDamage) r)).
Proof.
  repeat split.
  apply (takeDamage_spec (exec (@startGame sample) (boot 0))).
  cbn. lia.
Defined.

(** *** The shop *)

(** C8.  With score < cost, [buyItem] returns false and leaves the
    whole state as it was; when [buyItem('HEAL', cost)] succeeds,
    lives becomes min(lives + 1, maxLives), hence at most maxLives. *)
Theorem buyItem_spec (r : Runtime) (cost : Z) :
  (forall type : ItemType,
     score (store r) < cost ->
     result (buyItem type cost) r = false /\
     exec (buyItem type cost) r = r) /\
  (result (buyItem HEAL cost) r = true ->
   let r' := exec (buyItem HEAL cost) r in
   lives (store r') = Z.min (lives (store r) + 1) (maxLives (store r)) /\
   lives (store r') <= maxLives (store r')).
Proof.
  split.
  - intros type Hlt.
    assert (Hf : (score (store r) >=? cost) = false).
    { destruct (score (store r) >=? cost) eqn:E; [|reflexivity].
      apply Z.geb_le in E. lia. }
    unfold result, exec, buyItem, bind, get. rewrite Hf. auto.
  - unfold result, exec, buyItem, bind, get.
    destruct (score (store r) >=? cost) eqn:E.
    + intros _. open_store r. split; [reflexivity | lia].
    + cbn. discriminate.
Qed.

Lemma buyItem_spec_witness :
  let r := fiveLetters 1 300 1 0 0 in
  (result (buyItem IMMORTAL 3000) r = false
   /\ exec (buyItem IMMORTAL 3000) r = r)
  /\ lives (store (exec (buyItem HEAL 100) r)) = Z.min (3 + 1) 3.
Proof.
  destruct (buyItem_spec (fiveLetters 1 300 1 0 0) 3000) as [H _].
  split.
  - apply (H IMMORTAL). cbn. lia.
  - reflexivity.
Defined.

(** C10.  With score >= cost and lives = maxLives, [buyItem('HEAL',
    cost)] still succeeds: it returns true and takes cost off the
    score, leaving lives and maxLives unchanged. *)
Theorem buyItem_heal_at_full_lives (r : Runtime) (cost : Z) :
  cost <= score (store r) ->
  lives (store r) = maxLives (store r) ->
  let r' := exec (buyItem HEAL cost) r in
  result (buyItem HEAL cost) r = true /\
  score (store r') = score (store r) - cost /\
  lives (store r') = lives (store r) /\
  maxLives (store r') = maxLives (store r).
Proof.
  intros Hc Hl r'. subst r'.
  assert (Ht : (score (store r) >=? cost) = true) by (apply Z.geb_le; lia).
  unfold result, exec, buyItem, bind, get. rewrite Ht.
  open_store r. repeat split. lia.
Qed.

Lemma buyItem_heal_at_full_lives_witness :
  let r := fiveLetters 1 300 1 0 0 in
  result (buyItem HEAL 100) r = true /\
  score (store (exec (buyItem HEAL 100) r)) = 300 - 100 /\
  lives (store (exec (buyItem HEAL 100) r)) = 3 /\
  maxLives (store (exec (buyItem HEAL 100) r)) = 3.
Proof.
  apply (buyItem_heal_at_full_lives (fiveLetters 1 300 1 0 0) 100).
  - cbn. lia.
  - reflexivity.
Defined.

(** *** The status graph *)

Lemma collectLetter_status {K : Constants} (r : Runtime) (index : Z) :
  let s' := status (store (exec (collectLetter index) r)) in
  s' = status (store r) \/ s' = PLAYING \/ s' = VICTORY.
Proof.
  unfold exec, collectLetter, bind, get, Date_now.
  destruct (negb (includes (collectedLetters (store r)) index)).
  - destruct (_ =? _)%nat.
    + destruct (level (store r) <? MAX_LEVEL); open_store r; auto.
    + open_store r. auto.
  - open_store r. auto.
Qed.

Lemma takeDamage_status (r : Runtime) :
  let s' := status (store (exec takeDamage r)) in
  s' = status (store r) \/ s' = GAME_OVER.
Proof.
  unfold exec, takeDamage, bind, get.
  destruct (isImmortalityActive (store r)); [auto|].
  destruct (lives (store r) >? 1); open_store r; auto.
Qed.

(** C6, the claim as stated, fails: no action checks the status it is
    called in, so [openShop()] on the freshly created store takes
    MENU to SHOP, which is not an edge of the graph. *)
Lemma openShop_in_menu_leaves_graph :
  ~ (forall (K : Constants) (r : Runtime) (c : Call),
       let s' := status (store (exec (call c) r)) in
       s' = status (store r) \/ edge (status (store r)) s' = true).
Proof.
  intros H. specialize (H sample (boot 0) OpenShop).
  cbn in H. destruct H as [H | H]; discriminate H.
Qed.

(** C6, amended.  Every status change made by an action other than
    [setStatus] follows an edge of the graph, provided [openShop],
    [takeDamage] and [collectLetter] are called while status is
    PLAYING. *)
Theorem status_change_follows_edge
  {K : Constants} (r : Runtime) (c : Call) :
  is_setStatus c = false ->
  (in_run_only c = true -> status (store r) = PLAYING) ->
  let s' := status (store (exec (call c) r)) in
  s' = status (store r) \/ edge (status (store r)) s' = true.
Proof.
  intros Hs Hrun.
  assert (Hplaying : forall s, PLAYING = s \/ edge s PLAYING = true).
  { intros []; auto. }
  destruct c; cbn [call is_setStatus in_run_only] in *;
    try discriminate Hs;
    try specialize (Hrun eq_refl).
  - (* startGame *) open_store r. apply Hplaying.
  - (* restartGame *) open_store r. apply Hplaying.
  - (* takeDamage *)
    destruct (takeDamage_status r) as [H | H]; cbn zeta in *;
      rewrite H; [auto | rewrite Hrun; auto].
  - (* addScore *) open_store r. auto.
  - (* collectGem *) open_store r. auto.
  - (* collectLetter *)
    destruct (collectLetter_status r index) as [H | [H | H]]; cbn zeta in *;
      rewrite H; [auto | rewrite Hrun; auto ..].
  - (* setDistance *) open_store r. auto.
  - (* tickCombo *)
    unfold exec, tickCombo, bind, get, Date_now.
    destruct (_ && _); [|auto].
    destruct (_ >? _); open_store r; auto.
  - (* buyItem *)
    unfold exec, buyItem, bind, get.
    destruct (_ >=? _); [|auto].
    destruct type; open_store r; auto.
  - (* advanceLevel *) open_store r. apply Hplaying.
  - (* openShop *) open_store r. subst. auto.
  - (* closeShop *) open_store r. apply Hplaying.
  - (* activateImmortality *)
    unfold exec, activateImmortality, bind, get.
    destruct (_ && _); open_store r; auto.
  - (* increaseLevel *) open_store r. auto.
Qed.

Lemma status_change_follows_edge_witness :
  let K := sample in
  let r := exec startGame (boot 0) in
  let s' := status (store (exec (call OpenShop) r)) in
  s' = PLAYING \/ edge PLAYING s' = true.
Proof.
  apply (@status_change_follows_edge sample
           (exec (@startGame sample) (boot 0)) OpenShop).
  - reflexivity.
  - intros _. reflexivity.
Defined.

(** *** The immortality timer *)

(** C7.  The claim asks that a callback left over from an earlier
    activation does not end a later activation early.  In the code the
    callback is [set({ isImmortalityActive: false })] whatever happened
    since, and [restartGame] cancels nothing.  Immortality is activated
    at t = 0, the run is restarted at t = 1000, and immortality is
    activated again at t = 4000; at t = 5000 the first callback fires
    and clears the flag, 1000 ms into the second activation, whose own
    callback is still pending for t = 9000. *)
Theorem stale_immortality_callback_ends_new_activation {K : Constants} :
  let r :=
    run [ Do StartGame; Do (AddScore 1000); Do (BuyItem IMMORTAL 1000);
          Do ActivateImmortality;
          Wait 1000;
          Do RestartGame; Do (AddScore 1000); Do (BuyItem IMMORTAL 1000);
          Wait 3000;
          Do ActivateImmortality ] (boot 0) in
  (clock r = 4000 /\
   isImmortalityActive (store r) = true /\
   timers r = [ mkTimer 5000 [IsImmortalityActive false];
                mkTimer 9000 [IsImmortalityActive false] ]) /\
  let r' := exec (elapse 1000) r in
  clock r' = 5000 /\
  status (store r') = PLAYING /\
  isImmortalityActive (store r') = false /\
  timers r' = [ mkTimer 9000 [IsImmortalityActive false] ].
Proof. cbn. repeat split. Qed.

(* ================================================================== *)
(** ** Properties of the object loop                                   *)
(* ================================================================== *)

Import LevelManager.

(** *** Order on doubles *)

Lemma SFcompare_antisym (x y : spec_float) :
  SFcompare y x = option_map CompOpp (SFcompare x y).
Proof.
  destruct x as [sx | sx | | sx mx ex], y as [sy | sy | | sy my ey];
    cbn; try reflexivity;
    try (destruct sx; reflexivity); try (destruct sy; reflexivity);
    try (destruct sx, sy; reflexivity).
  destruct sx, sy; try reflexivity;
    rewrite (Z.compare_antisym ex ey);
    destruct (ex ?= ey)%Z; cbn; try reflexivity;
    rewrite (ZC4 my mx); try reflexivity.
Qed.

Lemma ltb_leb_false (x y : float) :
  (x <? y)%float = true -> (y <=? x)%float = false.
Proof.
  rewrite ltb_spec, leb_spec. unfold SFltb, SFleb.
  rewrite (SFcompare_antisym (Prim2SF x) (Prim2SF y)).
  destruct (SFcompare (Prim2SF x) (Prim2SF y)) as [[]|]; cbn; congruence.
Qed.

Lemma leb_ltb_false (x y : float) :
  (x <=? y)%float = true -> (y <? x)%float = false.
Proof.
  rewrite ltb_spec, leb_spec. unfold SFltb, SFleb.
  rewrite (SFcompare_antisym (Prim2SF x) (Prim2SF y)).
  destruct (SFcompare (Prim2SF x) (Prim2SF y)) as [[]|]; cbn; congruence.
Qed.

(** 2 and 3 share the exponent -51; their mantissas are 2^52 and 3 * 2^51. *)
Lemma Prim2SF_two : Prim2SF 2 = S754_finite false 4503599627370496 (-51).
Proof. reflexivity. Qed.

Lemma Prim2SF_three : Prim2SF 3 = S754_finite false 6755399441055744 (-51).
Proof. reflexivity. Qed.

(** Below a positive double, below every larger one of the same exponent. *)
Lemma SFltb_mantissa_mono (x : spec_float) (a b : positive) (e0 : Z) :
  (a < b)%positive ->
  SFltb x (S754_finite false a e0) = true ->
  SFltb x (S754_finite false b e0) = true.
Proof.
  intros Hab. unfold SFltb.
  destruct x as [s | s | | s m e]; cbn; try congruence.
  destruct s; try congruence.
  destruct (e ?= e0)%Z; try congruence.
  rewrite !Pos.compare_cont_spec. cbn [Pos.switch_Eq].
  destruct (Pos.compare_spec m a); destruct (Pos.compare_spec m b);
    cbn; try congruence; lia.
Qed.

Lemma leb3_ltb2_false (t : float) :
  (3 <=? t)%float = true -> (t <? 2)%float = false.
Proof.
  intros H3. destruct (t <? 2)%float eqn:H2; [|reflexivity].
  assert (Hlt : (t <? 3)%float = true).
  { rewrite ltb_spec in *. rewrite Prim2SF_three. rewrite Prim2SF_two in H2.
    apply SFltb_mantissa_mono with (2 := H2). reflexivity. }
  apply ltb_leb_false in Hlt. congruence.
Qed.

Lemma ltb2_ltb3 (t : float) :
  (t <? 2)%float = true -> (t <? 3)%float = true.
Proof.
  rewrite !ltb_spec, Prim2SF_two, Prim2SF_three.
  apply SFltb_mantissa_mono. reflexivity.
Qed.

Lemma ltb_not_nan (x y : float) :
  (x <? y)%float = true -> is_nan x = false.
Proof.
  unfold is_nan. rewrite ltb_spec, FloatAxioms.eqb_spec.
  unfold SFltb, SFeqb.
  destruct (Prim2SF x) as [s | s | | s m e]; cbn; try congruence.
  - destruct s; reflexivity.
  - intros _.
    destruct s; rewrite Z.compare_refl, Pos.compare_cont_refl; reflexivity.
Qed.

(** A render delta below the cap is used as it is. *)
Lemma clamp_below_cap (delta : float) :
  (delta <? 0.05)%float = true -> clamp delta = delta.
Proof.
  intros H. unfold clamp, Math_min.
  rewrite (ltb_not_nan _ _ H), H. reflexivity.
Qed.

(** *** The loop's variables *)

Section LoopFacts.
Context {K : Constants}.
Variables (onPlayerHit : M unit) (safeDelta dist : float) (playerPos : Vec3).

Ltac break_hyp_ifs H :=
  repeat match type of H with
         | context [if ?b then _ else _] => destruct b eqn:?
         | context [match ?o with Some _ => _ | None => _ end] =>
             destruct o eqn:?
         end.

Lemma alienAI_shape (obj obj1 : GameObject) (l l1 : Loop) :
  alienAI onPlayerHit obj l = (obj1, l1) ->
  type obj1 = type obj /\
  keptObjects l1 = keptObjects l /\
  visited l1 = visited l /\
  ((newSpawns l1 = newSpawns l /\ hasChanges l1 = hasChanges l) \/
   (exists m, newSpawns l1 = newSpawns l ++ [m] /\ type m = MISSILE
              /\ hasChanges l1 = true)).
Proof.
  unfold alienAI. intros H. break_hyp_ifs H; inversion H; subst; cbn;
    try (repeat split; auto; fail).
  repeat split. right. eexists. repeat split.
Qed.

Lemma collide_shape (prevZ : float) (obj obj2 : GameObject) (l l2 : Loop)
    (keep : bool) :
  collide onPlayerHit playerPos prevZ obj l = (obj2, l2, keep) ->
  type obj2 = type obj /\
  keptObjects l2 = keptObjects l /\
  visited l2 = visited l /\
  newSpawns l2 = newSpawns l /\
  (hasChanges l = true -> hasChanges l2 = true) /\
  (keep = false -> hasChanges l2 = true).
Proof.
  unfold collide. intros H.
  destruct obj as [i ty pos ac co va pt ti hf at_ bs bt bl].
  cbn [type] in *.
  destruct ty; cbn [ObjectType_eqb orb andb] in H;
    break_hyp_ifs H; inversion H; subst; cbn;
    repeat split; auto; discriminate.
Qed.

Lemma updateRegular_shape (obj : GameObject) (l : Loop) :
  exists (obj' : GameObject) (keep : bool) (sp : list GameObject),
    let l' := updateRegular onPlayerHit safeDelta dist playerPos obj l in
    type obj' = type obj /\
    keptObjects l' = (if keep then keptObjects l ++ [obj'] else keptObjects l) /\
    visited l' = visited l ++ [obj'] /\
    newSpawns l' = newSpawns l ++ sp /\
    Forall (fun o => type o = MISSILE) sp /\
    (hasChanges l' = false ->
     hasChanges l = false /\ keep = true /\ sp = []).
Proof.
  unfold updateRegular.
  set (moved := with_z _ obj).
  assert (Hmoved : type moved = type obj) by reflexivity.
  destruct (alienAI onPlayerHit moved l) as [obj1 l1] eqn:Ha.
  apply alienAI_shape in Ha. destruct Ha as (Ht1 & Hk1 & Hv1 & Hs1).
  set (c := if active obj1 then _ else _).
  assert (Hc : exists obj2 l2 keep,
             c = (obj2, l2, keep) /\ type obj2 = type obj1 /\
             keptObjects l2 = keptObjects l1 /\ visited l2 = visited l1 /\
             newSpawns l2 = newSpawns l1 /\
             (hasChanges l1 = true -> hasChanges l2 = true) /\
             (keep = false -> hasChanges l2 = true)).
  { subst c. destruct (active obj1).
    - destruct (collide _ _ _ obj1 l1) as [[obj2 l2] keep] eqn:Hc.
      exists obj2, l2, keep. split; [reflexivity|].
      exact (collide_shape _ _ _ _ _ _ Hc).
    - exists obj1, l1, true. repeat split; auto. discriminate. }
  destruct Hc as (obj2 & l2 & keep & -> & Ht2 & Hk2 & Hv2 & Hs2 & Hh2 & Hkeep).
  assert (Hsp : exists sp, newSpawns l2 = newSpawns l ++ sp /\
                           Forall (fun o => type o = MISSILE) sp /\
                           (hasChanges l2 = false ->
                            hasChanges l = false /\ sp = [])).
  { destruct Hs1 as [[Hs1 Hh1] | (m & Hs1 & Hm & Hh1)].
    - exists []. rewrite Hs2, Hs1, app_nil_r.
      split; [reflexivity | split; [constructor|]].
      intros Hf. split; [|reflexivity]. rewrite <- Hh1.
      destruct (hasChanges l1); [rewrite Hh2 in Hf; auto | reflexivity].
    - exists [m]. rewrite Hs2, Hs1.
      split; [reflexivity | split; [repeat constructor; exact Hm|]].
      intros Hf. rewrite Hh2 in Hf; [discriminate | exact Hh1]. }
  destruct Hsp as (sp & Hsp & Hall & Hfalse).
  destruct (gtb (vz (position obj2)) REMOVE_DISTANCE).
  - exists obj2, false, sp. cbn.
    repeat split; try congruence; try discriminate.
  - exists obj2, keep, sp. cbn.
    split; [congruence|]. split; [destruct keep; congruence|].
    split; [congruence|]. split; [congruence|]. split; [exact Hall|].
    intros Hf. destruct (Hfalse Hf) as [Hl Hnil].
    repeat split; try assumption.
    destruct keep; [reflexivity|]. rewrite Hkeep in Hf; auto.
Qed.

End LoopFacts.

Section LoopInvariant.
Context {K : Constants}.
Variables (onPlayerHit : M unit) (safeDelta dist : float) (playerPos : Vec3).

Lemma beamLive_other (o : GameObject) :
  type o <> BOSS_BEAM -> beamLive o = true.
Proof. unfold beamLive. destruct (type o); congruence. Qed.

Lemma updateRegular_invariant (l : Loop) (obj : GameObject) :
  type obj <> BOSS_BEAM ->
  loop_invariant l ->
  loop_invariant (updateRegular onPlayerHit safeDelta dist playerPos obj l).
Proof.
  intros Hty (Hk & Hs & Hv).
  destruct (updateRegular_shape onPlayerHit safeDelta dist playerPos obj l)
    as (obj' & keep & sp & Ht & Hk' & Hv' & Hs' & Hall & Hf).
  cbn zeta in *. unfold loop_invariant. rewrite Hk', Hv', Hs'.
  split; [|split].
  - destruct keep; [|exact Hk].
    apply Forall_app. split; [exact Hk|].
    constructor; [|constructor]. apply beamLive_other. congruence.
  - apply Forall_app. split; assumption.
  - intros Hh. destruct (Hf Hh) as (Hl & -> & ->).
    destruct (Hv Hl) as [Hvis Hnil].
    rewrite Hvis, Hnil. split; reflexivity.
Qed.

Lemma updateObject_invariant (l : Loop) (obj : GameObject) :
  loop_invariant l ->
  loop_invariant (updateObject onPlayerHit safeDelta dist playerPos l obj).
Proof.
  intros Hinv. unfold updateObject.
  destruct (type obj) eqn:Hty;
    try (apply updateRegular_invariant; [congruence | exact Hinv]).
  - (* BOSS *)
    destruct Hinv as (Hk & Hs & Hv). unfold loop_invariant. cbn.
    split; [|split].
    + apply Forall_app. split; [exact Hk|].
      constructor; [|constructor]. apply beamLive_other. congruence.
    + exact Hs.
    + intros Hh. destruct (Hv Hh) as [-> ->]. split; reflexivity.
  - (* BOSS_BEAM *)
    destruct Hinv as (Hk & Hs & Hv). unfold updateBeam.
    destruct (_ <? 2.0)%float eqn:H2; [|destruct (_ <? 3.0)%float eqn:H3].
    + unfold loop_invariant. cbn. split; [|split].
      * apply Forall_app. split; [exact Hk|].
        constructor; [|constructor].
        unfold beamLive. cbn. rewrite Hty. apply ltb2_ltb3. exact H2.
      * exact Hs.
      * intros Hh. destruct (Hv Hh) as [-> ->]. split; reflexivity.
    + unfold loop_invariant.
      destruct (_ <? 0.9)%float; cbn; (split; [|split]);
        try exact Hs;
        try (intros Hh; destruct (Hv Hh) as [-> ->]; split; reflexivity);
        (apply Forall_app; split; [exact Hk|];
         constructor; [|constructor];
         unfold beamLive; cbn; rewrite Hty; exact H3).
    + unfold loop_invariant. cbn. split; [exact Hk | split; [exact Hs|]].
      discriminate.
Qed.

Lemma updateObjects_invariant (objs : list GameObject) (l : Loop) :
  loop_invariant l ->
  loop_invariant (updateObjects onPlayerHit safeDelta dist playerPos objs l).
Proof.
  revert l. unfold updateObjects.
  induction objs as [|obj objs IH]; intros l Hinv; cbn [fold_left].
  - exact Hinv.
  - apply IH. apply updateObject_invariant. exact Hinv.
Qed.

Lemma enter_invariant (hasChanges0 : bool) (rt : Runtime) (n : nat) :
  loop_invariant (enter hasChanges0 rt n).
Proof.
  unfold loop_invariant, enter. cbn. repeat split; constructor.
Qed.

(** Every beam of [objectsRef.current] at the end of a frame has a
    timer below 3.0. *)
Lemma commit_beams_live (spawned : list GameObject) (l : Loop) :
  loop_invariant l ->
  Forall (fun o => isBeam o = false) spawned ->
  Forall (fun o => beamLive o = true) (commit spawned l).
Proof.
  intros (Hk & Hs & Hv) Hsp. unfold commit.
  assert (Hall : Forall (fun o => beamLive o = true)
                        (keptObjects l ++ newSpawns l ++ spawned)).
  { apply Forall_app. split; [exact Hk|]. apply Forall_app. split.
    - eapply Forall_impl; [|exact Hs]. intros o Ho. cbn beta in Ho.
      apply beamLive_other. congruence.
    - eapply Forall_impl; [|exact Hsp]. intros o Ho. cbn beta in Ho.
      apply beamLive_other. unfold isBeam in Ho. intros E.
      rewrite E in Ho. discriminate. }
  destruct (hasChanges l) eqn:Hh; cbn [orb].
  - exact Hall.
  - destruct (Nat.eqb (List.length spawned) 0) eqn:Hn; cbn [negb].
    + destruct (Hv eq_refl) as [-> _]. exact Hk.
    + exact Hall.
Qed.

End LoopInvariant.

(** *** Boss beams *)

(** C9.  On a frame whose time step is dt (the render delta capped at
    0.05 s), the loop body leaves a BOSS_BEAM object with timer
    t = (its timer || 0) + dt, and:
    - if t < 2.0, its state is WARNING, it is kept and nothing is
      dispatched;
    - if 2.0 <= t < 3.0, its state is ACTIVE, it is kept, and
      'player-hit' is dispatched exactly when
      |position[0] - playerPos.x| < 0.9;
    - if t >= 3.0, it is deactivated, not pushed on keptObjects, and
      hasChanges is set, and it is not in objectsRef.current at the end
      of the frame (whatever the spawning logic adds, which is never a
      beam). *)
Theorem boss_beam_update
  {K : Constants} (onPlayerHit : M unit) (speed delta : float)
  (playerPos : Vec3) (l : Loop) (obj : GameObject) :
  type obj = BOSS_BEAM ->
  let dt := clamp delta in
  let t := beamTime dt obj in
  let l' := updateObject onPlayerHit dt (speed * dt)%float playerPos l obj in
  exists obj' : GameObject,
    visited l' = visited l ++ [obj'] /\
    id obj' = id obj /\
    beamTimer obj' = Some t /\
    ((t <? 2)%float = true ->
     beamState obj' = Some WARNING /\
     active obj' = active obj /\
     keptObjects l' = keptObjects l ++ [obj'] /\
     dispatched l' = dispatched l) /\
    ((2 <=? t)%float = true -> (t <? 3)%float = true ->
     beamState obj' = Some ACTIVE /\
     active obj' = active obj /\
     keptObjects l' = keptObjects l ++ [obj'] /\
     dispatched l' =
       dispatched l ++
       (if (abs (vx (position obj) - vx playerPos) <? 0.9)%float
        then [player_hit] else [])) /\
    ((3 <=? t)%float = true ->
     active obj' = false /\
     keptObjects l' = keptObjects l /\
     hasChanges l' = true /\
     forall (currentObjects spawned : list GameObject)
            (hasChanges0 : bool) (rt : Runtime) (n : nat),
       Forall (fun o => isBeam o = false) spawned ->
       ~ In obj'
           (commit spawned
              (frameLoop onPlayerHit speed delta playerPos
                         currentObjects hasChanges0 rt n))).
Proof.
  intros Hty dt t l'. subst l'. unfold updateObject. rewrite Hty.
  unfold updateBeam. cbn zeta.
  change (number_or_zero (beamTimer obj) + dt)%float with t.
  clearbody t.
  destruct (t <? 2.0)%float eqn:H2; [|destruct (t <? 3.0)%float eqn:H3].
  - (* warning phase *)
    eexists. cbn. split; [reflexivity|]. split; [reflexivity|].
    split; [reflexivity|]. split; [|split].
    + intros _. repeat split.
    + intros H. apply leb_ltb_false in H. congruence.
    + intros H. apply leb3_ltb2_false in H. congruence.
  - (* active phase *)
    change (position (with_beamState ACTIVE (with_beamTimer t obj)))
      with (position obj).
    destruct (abs (vx (position obj) - vx playerPos) <? 0.9)%float eqn:Hdx;
      eexists; cbn; rewrite ?app_nil_r;
      (split; [reflexivity|]); (split; [reflexivity|]);
      (split; [reflexivity|]); (split; [|split]);
      try discriminate;
      try (intros _ _; repeat split);
      intros H; apply leb_ltb_false in H; congruence.
  - (* expired *)
    eexists. cbn. split; [reflexivity|]. split; [reflexivity|].
    split; [reflexivity|]. split; [|split]; try discriminate.
    intros _. repeat split.
    intros currentObjects spawned hasChanges0 rt n Hsp Hin.
    assert (Hlive : Forall (fun o => beamLive o = true)
                      (commit spawned
                         (frameLoop onPlayerHit speed delta playerPos
                                    currentObjects hasChanges0 rt n))).
    { apply commit_beams_live; [|assumption].
      unfold frameLoop. apply updateObjects_invariant.
      apply enter_invariant. }
    rewrite Forall_forall in Hlive. specialize (Hlive _ Hin).
    unfold beamLive in Hlive. cbn in Hlive. rewrite Hty in Hlive.
    congruence.
Qed.

Lemma boss_beam_update_witness :
  let K := sample in
  let dt := clamp 0.016%float in
  let obj := beamAt 7 2.2%float 2.99%float in
  let playerPos := (2.0%float, 0%float, 0%float) in
  let l := enter false (boot 0) 0 in
  let l' := updateObject takeDamage dt (22.5 * dt)%float playerPos l obj in
  exists obj' : GameObject,
    visited l' = [obj'] /\
    beamTimer obj' = Some (2.99 + dt)%float /\
    active obj' = false /\
    keptObjects l' = [] /\
    hasChanges l' = true /\
    ~ In obj'
        (commit []
           (frameLoop takeDamage 22.5%float 0.016%float playerPos
                      [obj] false (boot 0) 0)).
Proof.
  destruct (@boss_beam_update sample takeDamage 22.5%float
              0.016%float (2.0%float, 0%float, 0%float)
              (enter false (boot 0) 0)
              (beamAt 7 2.2%float 2.99%float) eq_refl)
    as (obj' & Hv & _ & Ht & _ & _ & Hx).
  exists obj'. destruct (Hx eq_refl) as (Ha & Hk & Hc & Hout).
  split; [exact Hv|]. split; [exact Ht|]. split; [exact Ha|].
  split; [exact Hk|]. split; [exact Hc|].
  apply Hout. constructor.
Defined.

(* ================================================================== *)
(** ** Further properties of the store                                 *)
(* ================================================================== *)

Import Reach.

(** *** Invariants of a run *)

Lemma NoDup_snoc (l : list Z) (x : Z) :
  NoDup l -> ~ In x l -> NoDup (l ++ [x]).
Proof.
  intros Hl Hx. apply NoDup_app; [exact Hl | repeat constructor; auto |].
  intros a Ha [Hb | []]. subst. contradiction.
Qed.

Lemma lane_growth (n : Z) :
  Z.odd n = true -> 3 <= n <= 9 ->
  Z.odd (Z.min (n + 2) 9) = true /\ 3 <= Z.min (n + 2) 9 <= 9.
Proof.
  intros Ho Hb.
  assert (H : n = 3 \/ n = 5 \/ n = 7 \/ n = 9).
  { apply Z.odd_spec in Ho. destruct Ho as [k Hk]. lia. }
  destruct H as [-> | [-> | [-> | ->]]]; cbn; lia.
Qed.

Lemma enqueue_clears (t : Timer) (q : list Timer) :
  clears t -> Forall clears q -> Forall clears (enqueue t q).
Proof.
  intros Ht Hq. induction Hq as [|u q Hu Hq IH]; cbn [enqueue].
  - repeat constructor. exact Ht.
  - destruct (due u <=? due t); constructor; auto.
Qed.

Lemma enqueue_In (t u : Timer) (q : list Timer) :
  In u (enqueue t q) <-> u = t \/ In u q.
Proof.
  induction q as [|v q IH]; cbn [enqueue].
  - cbn. intuition congruence.
  - destruct (due v <=? due t); cbn; rewrite ?IH; cbn; intuition congruence.
Qed.

Lemma enqueue_sorted (t : Timer) (q : list Timer) :
  StronglySorted (fun a b => due a <= due b) q ->
  StronglySorted (fun a b => due a <= due b) (enqueue t q).
Proof.
  intros Hq. induction Hq as [|u q Hq IH Hu]; cbn [enqueue].
  - repeat constructor.
  - destruct (due u <=? due t) eqn:E.
    + apply Z.leb_le in E. constructor; [exact IH|].
      apply Forall_forall. intros v Hv. apply enqueue_In in Hv.
      destruct Hv as [-> | Hv]; [exact E|].
      rewrite Forall_forall in Hu. apply Hu. exact Hv.
    + apply Z.leb_gt in E. constructor.
      * constructor; assumption.
      * constructor; [lia|].
        eapply Forall_impl; [|exact Hu]. cbn. intros; lia.
Qed.

Lemma enqueue_ok (t : Timer) (q : list Timer) :
  clears t -> queue_ok q -> queue_ok (enqueue t q).
Proof.
  intros Ht [Hc Hs]. split; [apply enqueue_clears | apply enqueue_sorted];
    assumption.
Qed.

(** What the event loop does to a queue of clearing callbacks: it
    fires a prefix, and the store changes at most in
    [isImmortalityActive]. *)
Lemma run_due_clears (target : Z) (q : list Timer) (s : GameState) :
  Forall clears q ->
  exists fired : list Timer,
    q = fired ++ snd (run_due target q s) /\
    Forall (fun t => due t <= target) fired /\
    fst (run_due target q s) =
      (if Nat.eqb (List.length fired) 0 then s
       else merge s [IsImmortalityActive false]) /\
    match snd (run_due target q s) with
    | [] => True
    | t :: _ => target < due t
    end.
Proof.
  intros Hq. revert s. induction Hq as [|u q Hu Hq IH]; intros s; cbn [run_due].
  - exists []. repeat split. constructor.
  - destruct (due u <=? target) eqn:E.
    + apply Z.leb_le in E.
      destruct (IH (merge s (callback u))) as (fired & Hf & Hd & Hs & Hn).
      exists (u :: fired). split; [cbn; congruence|].
      split; [constructor; assumption|]. split; [|exact Hn].
      rewrite Hs, Hu. cbn [List.length Nat.eqb].
      destruct (Nat.eqb (List.length fired) 0); [reflexivity|].
      destruct s; reflexivity.
    + apply Z.leb_gt in E. exists []. repeat split; [constructor | exact E].
Qed.

Lemma store_ok_flag {K : Constants} (s : GameState) (b : bool) :
  store_ok s -> store_ok (merge s [IsImmortalityActive b]).
Proof. destruct s. cbn. auto. Qed.

Lemma elapse_ok {K : Constants} (r : Runtime) (ms : Z) :
  runtime_ok r -> runtime_ok (exec (elapse ms) r).
Proof.
  intros [Hs [Hc Hq]]. unfold exec, elapse.
  destruct (run_due_clears (clock r + ms) (timers r) (store r) Hc)
    as (fired & Hf & _ & Hst & _).
  destruct (run_due (clock r + ms) (timers r) (store r)) as [s q] eqn:E.
  cbn [fst snd] in *. split; cbn [store timers snd].
  - rewrite Hst. destruct (Nat.eqb _ _); [exact Hs|].
    apply store_ok_flag. exact Hs.
  - rewrite Hf in Hc, Hq. split.
    + apply Forall_app in Hc. tauto.
    + clear - Hq. induction fired as [|a fired IH]; [exact Hq|].
      cbn in Hq. inversion Hq; subst. auto.
Qed.

Ltac ok_goal :=
  unfold runtime_ok, store_ok in *;
  cbn -[Z.add Z.sub Z.mul Z.min Z.ltb Z.leb Z.gtb Z.geb Z.odd] in *;
  intuition (try (constructor; fail); auto;
             try match goal with
                 | |- context [if ?b then _ else _] => destruct b
                 end; try lia).

Lemma collectLetter_ok {K : Constants} (r : Runtime) (index : Z) :
  runtime_ok r -> runtime_ok (exec (collectLetter index) r).
Proof.
  intros H. unfold exec, collectLetter, bind, get, Date_now.
  destruct (includes (collectedLetters (store r)) index) eqn:Hinc; cbn [negb].
  - open_store r. ok_goal.
  - apply includes_false_iff in Hinc.
    assert (Hnd : NoDup (collectedLetters (store r)) ->
                  NoDup (collectedLetters (store r) ++ [index])).
    { intros Hn. apply NoDup_snoc; assumption. }
    destruct (_ =? _)%nat.
    + destruct (level (store r) <? MAX_LEVEL).
      * destruct H as [(Hl & Hm & Hn & Ho & Hb & Hv) Hq].
        destruct (lane_growth _ Ho Hb) as [Ho' Hb'].
        open_store r. ok_goal.
      * open_store r. ok_goal.
    + open_store r. ok_goal.
Qed.

Lemma call_ok {K : Constants} (r : Runtime) (c : Call) :
  runtime_ok r -> runtime_ok (exec (call c) r).
Proof.
  intros H.
  destruct c as [ | | | amount | value | index | st | dist | | ty cost
                | | | | | ]; cbn [call].
  - (* startGame *) open_store r. ok_goal.
  - (* restartGame *) open_store r. ok_goal.
  - (* takeDamage *)
    unfold exec, takeDamage, bind, get.
    destruct (isImmortalityActive (store r)); [exact H|].
    destruct (lives (store r) >? 1) eqn:E;
      [apply Z.gtb_gt in E|]; open_store r; ok_goal.
  - (* addScore *) open_store r. ok_goal.
  - (* collectGem *) open_store r. ok_goal.
  - (* collectLetter *) apply collectLetter_ok. exact H.
  - (* setStatus *) open_store r. ok_goal.
  - (* setDistance *) open_store r. ok_goal.
  - (* tickCombo *)
    unfold exec, tickCombo, bind, get, Date_now.
    destruct (_ && _); [|exact H].
    destruct (_ >? _); [|exact H]. open_store r. ok_goal.
  - (* buyItem *)
    unfold exec, buyItem, bind, get.
    destruct (_ >=? _); [|exact H].
    destruct ty; open_store r; ok_goal.
  - (* advanceLevel *)
    destruct H as [(Hl & Hm & Hn & Ho & Hb & Hv) Hq].
    destruct (lane_growth _ Ho Hb) as [Ho' Hb'].
    open_store r. ok_goal.
  - (* openShop *) open_store r. ok_goal.
  - (* closeShop *) open_store r. ok_goal.
  - (* activateImmortality *)
    unfold exec, activateImmortality, bind, get.
    destruct (_ && _); [|exact H].
    destruct H as [Hs Hq]. split.
    + cbn. apply store_ok_flag. exact Hs.
    + cbn. apply enqueue_ok; [reflexivity | exact Hq].
  - (* increaseLevel *) open_store r. ok_goal.
Qed.

Lemma boot_ok {K : Constants} (t0 : Z) : runtime_ok (boot t0).
Proof.
  unfold runtime_ok, store_ok, queue_ok, boot. cbn.
  repeat split; try lia; constructor.
Qed.

Lemma run_ok {K : Constants} (es : list Step) (r : Runtime) :
  runtime_ok r -> runtime_ok (run es r).
Proof.
  revert r. unfold run. induction es as [|e es IH]; intros r H; cbn [fold_left].
  - exact H.
  - apply IH. destruct e; cbn [step]; [apply call_ok | apply elapse_ok];
      exact H.
Qed.

(** X1.  Along any run of calls and waits from the freshly created
    store, lives stays between 0 and maxLives. *)
Theorem lives_within_bounds {K : Constants} (es : list Step) (t0 : Z) :
  let s := store (run es (boot t0)) in
  0 <= lives s <= maxLives s.
Proof. apply (run_ok es (boot t0) (boot_ok t0)). Qed.

(** X2.  With MAX_MULTIPLIER at least 1, the multiplier stays between
    1 and MAX_MULTIPLIER along any run from the freshly created store. *)
Theorem multiplier_within_bounds {K : Constants} (es : list Step) (t0 : Z) :
  1 <= MAX_MULTIPLIER ->
  let s := store (run es (boot t0)) in
  1 <= multiplier s <= MAX_MULTIPLIER.
Proof.
  intros HM. destruct (run_ok es (boot t0) (boot_ok t0)) as [(_ & H & _) _].
  exact (H HM).
Qed.

Lemma multiplier_within_bounds_witness :
  let s := store (@run sample untilLastLetter (boot 0)) in
  1 <= multiplier s <= 5.
Proof.
  apply (@multiplier_within_bounds sample untilLastLetter 0). cbn. lia.
Defined.

(** X3.  collectedLetters never holds an index twice, along any run
    from the freshly created store. *)
Theorem collectedLetters_distinct {K : Constants} (es : list Step) (t0 : Z) :
  NoDup (collectedLetters (store (run es (boot t0)))).
Proof. apply (run_ok es (boot t0) (boot_ok t0)). Qed.

(** X4.  laneCount is always one of 3, 5, 7, 9 along any run from the
    freshly created store. *)
Theorem laneCount_odd_up_to_nine {K : Constants} (es : list Step) (t0 : Z) :
  In (laneCount (store (run es (boot t0)))) [3; 5; 7; 9].
Proof.
  destruct (run_ok es (boot t0) (boot_ok t0)) as [(_ & _ & _ & Ho & Hb & _) _].
  apply Z.odd_spec in Ho. destruct Ho as [k Hk]. cbn. lia.
Qed.

Lemma elapse_fields (r : Runtime) (ms : Z) :
  Forall clears (timers r) ->
  let r' := exec (elapse ms) r in
  clock r' = clock r + ms /\
  Forall clears (timers r') /\
  (store r' = store r \/
   store r' = merge (store r) [IsImmortalityActive false]).
Proof.
  intros Hc. unfold exec, elapse.
  destruct (run_due_clears (clock r + ms) (timers r) (store r) Hc)
    as (fired & Hf & _ & Hst & _).
  destruct (run_due (clock r + ms) (timers r) (store r)) as [s q] eqn:E.
  cbn [fst snd store clock timers] in *.
  split; [reflexivity|]. split.
  - rewrite Hf in Hc. apply Forall_app in Hc. tauto.
  - rewrite Hst. destruct (Nat.eqb _ _); auto.
Qed.

Ltac bools :=
  repeat match goal with
         | H : (_ <? _) = true |- _ => apply Z.ltb_lt in H
         | H : (_ <? _) = false |- _ => apply Z.ltb_ge in H
         | H : (_ <=? _) = true |- _ => apply Z.leb_le in H
         | H : (_ <=? _) = false |- _ => apply Z.leb_gt in H
         | H : (_ >=? _) = true |- _ => apply Z.geb_le in H
         | H : (_ >? _) = true |- _ => apply Z.gtb_gt in H
         end.

Lemma call_score_nonneg {K : Constants} (r : Runtime) (c : Call) :
  1 <= MAX_MULTIPLIER ->
  runtime_ok r ->
  tame (Do c) = true ->
  0 <= score (store r) ->
  0 <= score (store (exec (call c) r)).
Proof.
  intros HM [(_ & Hm & _) _] Ht Hs. specialize (Hm HM).
  destruct c as [ | | | amount | value | index | st | dist | | ty cost
                | | | | | ]; cbn [call tame] in *; bools.
  - open_store r. lia.
  - open_store r. lia.
  - unfold exec, takeDamage, bind, get.
    destruct (isImmortalityActive (store r)); [exact Hs|].
    destruct (lives (store r) >? 1); open_store r; lia.
  - open_store r. lia.
  - open_store r.
    assert (0 <= value * (if clock0 <? multiplierEndTime0
                          then Z.min (multiplier0 + 1) MAX_MULTIPLIER
                          else 1)).
    { apply Z.mul_nonneg_nonneg; [lia|]. destruct (_ <? _); lia. }
    lia.
  - unfold exec, collectLetter, bind, get, Date_now.
    destruct (negb _).
    + destruct (_ =? _)%nat.
      * destruct (level (store r) <? MAX_LEVEL); open_store r;
          try destruct (_ <? _); lia.
      * open_store r. destruct (_ <? _); lia.
    + open_store r. destruct (_ <? _); lia.
  - open_store r. lia.
  - open_store r. lia.
  - unfold exec, tickCombo, bind, get, Date_now.
    destruct (_ && _); [|exact Hs].
    destruct (_ >? _); [|exact Hs]. open_store r. lia.
  - unfold exec, buyItem, bind, get.
    destruct (score (store r) >=? cost) eqn:E; [|exact Hs]. bools.
    destruct ty; open_store r; lia.
  - open_store r. lia.
  - open_store r. lia.
  - open_store r. lia.
  - unfold exec, activateImmortality, bind, get.
    destruct (_ && _); [|exact Hs]. open_store r. lia.
  - open_store r. lia.
Qed.

(** X5.  With MAX_MULTIPLIER at least 1, the score never becomes
    negative along a run from the freshly created store whose
    [addScore] amounts and gem values are not negative; [buyItem] never
    overdraws it, whatever the cost. *)
Theorem score_never_negative {K : Constants} (es : list Step) (t0 : Z) :
  1 <= MAX_MULTIPLIER ->
  Forall (fun e => tame e = true) es ->
  0 <= score (store (run es (boot t0))).
Proof.
  intros HM Hes.
  assert (H : forall r, runtime_ok r -> 0 <= score (store r) ->
                        0 <= score (store (run es r))).
  { unfold run. induction Hes as [|e es He Hes IH]; intros r Hok Hs;
      cbn [fold_left]; [exact Hs|].
    apply IH.
    - destruct e; cbn [step]; [apply call_ok | apply elapse_ok]; exact Hok.
    - destruct e as [c | ms]; cbn [step].
      + apply call_score_nonneg; assumption.
      + destruct Hok as [_ [Hc _]].
        destruct (elapse_fields r ms Hc) as (_ & _ & [-> | ->]);
          [exact Hs|]. destruct (store r); exact Hs. }
  apply H; [apply boot_ok | cbn; lia].
Qed.

Lemma score_never_negative_witness :
  0 <= score (store (@run sample
                          (untilLastLetter ++ [Do (BuyItem HEAL 2600)])
                          (boot 0))).
Proof.
  apply (@score_never_negative sample
           (untilLastLetter ++ [Do (BuyItem HEAL 2600)]) 0).
  - cbn. lia.
  - repeat constructor.
Defined.

Lemma call_level_bounded {K : Constants} (r : Runtime) (c : Call) :
  by_letters (Do c) = true ->
  level (store r) <= MAX_LEVEL ->
  level (store (exec (call c) r)) <= MAX_LEVEL.
Proof.
  intros Hb Hl.
  destruct c as [ | | | amount | value | index | st | dist | | ty cost
                | | | | | ]; cbn [call by_letters] in *;
    try discriminate Hb.
  - open_store r. unfold MAX_LEVEL. lia.
  - open_store r. unfold MAX_LEVEL. lia.
  - unfold exec, takeDamage, bind, get.
    destruct (isImmortalityActive (store r)); [exact Hl|].
    destruct (lives (store r) >? 1); open_store r; lia.
  - open_store r. lia.
  - open_store r. lia.
  - unfold exec, collectLetter, bind, get, Date_now.
    destruct (negb _).
    + destruct (_ =? _)%nat.
      * destruct (level (store r) <? MAX_LEVEL) eqn:E; bools;
          open_store r; lia.
      * open_store r. lia.
    + open_store r. lia.
  - open_store r. lia.
  - open_store r. lia.
  - unfold exec, tickCombo, bind, get, Date_now.
    destruct (_ && _); [|exact Hl].
    destruct (_ >? _); [|exact Hl]. open_store r. lia.
  - unfold exec, buyItem, bind, get.
    destruct (_ >=? _); [|exact Hl].
    destruct ty; open_store r; lia.
  - open_store r. lia.
  - open_store r. lia.
  - unfold exec, activateImmortality, bind, get.
    destruct (_ && _); [|exact Hl]. open_store r. lia.
Qed.

(** X6.  As long as [advanceLevel] and [increaseLevel] are not called
    directly, the level stays between 1 and MAX_LEVEL: [collectLetter]
    advances the level only below MAX_LEVEL. *)
Theorem level_within_bounds {K : Constants} (es : list Step) (t0 : Z) :
  Forall (fun e => by_letters e = true) es ->
  1 <= level (store (run es (boot t0))) <= MAX_LEVEL.
Proof.
  intros Hes. split.
  - apply (run_ok es (boot t0) (boot_ok t0)).
  - assert (H : forall r, runtime_ok r ->
                          level (store r) <= MAX_LEVEL ->
                          level (store (run es r)) <= MAX_LEVEL).
    { unfold run. induction Hes as [|e es He Hes IH]; intros r Hok Hl;
        cbn [fold_left]; [exact Hl|].
      apply IH.
      - destruct e; cbn [step]; [apply call_ok | apply elapse_ok]; exact Hok.
      - destruct e as [c | ms]; cbn [step].
        + apply call_level_bounded; assumption.
        + destruct Hok as [_ [Hc _]].
          destruct (elapse_fields r ms Hc) as (_ & _ & [-> | ->]);
            [exact Hl|]. destruct (store r); exact Hl. }
    apply H; [apply boot_ok | cbn; unfold MAX_LEVEL; lia].
Qed.

Lemma level_within_bounds_witness :
  let s := store (@run sample (untilLastLetter ++ [Do (CollectLetter 5)])
                       (boot 0)) in
  1 <= level s <= MAX_LEVEL.
Proof.
  apply (@level_within_bounds sample
           (untilLastLetter ++ [Do (CollectLetter 5)]) 0).
  repeat constructor.
Defined.

(** *** Immortality *)

(** X7.  With no callback pending, an activation lasts exactly five
    seconds: the flag is still set after any wait shorter than 5000 ms
    and is cleared, with nothing left pending, after any wait of
    5000 ms or more. *)
Theorem immortality_lasts_five_seconds (r : Runtime) :
  timers r = [] ->
  hasImmortality (store r) = true ->
  isImmortalityActive (store r) = false ->
  let r1 := exec activateImmortality r in
  isImmortalityActive (store r1) = true /\
  (forall ms, ms < 5000 ->
     isImmortalityActive (store (exec (elapse ms) r1)) = true) /\
  (forall ms, 5000 <= ms ->
     isImmortalityActive (store (exec (elapse ms) r1)) = false /\
     timers (exec (elapse ms) r1) = []).
Proof.
  intros Hq Hh Ha. unfold exec, activateImmortality, bind, get.
  rewrite Hh, Ha. cbn [andb negb].
  destruct r as [s c q]. cbn in Hq, Hh, Ha. subst q. destruct s.
  cbn in Hh, Ha. subst. cbn.
  split; [reflexivity|]. split.
  - intros ms Hms. unfold elapse. cbn.
    destruct (c + 5000 <=? c + ms) eqn:E; [bools; lia | reflexivity].
  - intros ms Hms. unfold elapse. cbn.
    destruct (c + 5000 <=? c + ms) eqn:E; [split; reflexivity | bools; lia].
Qed.

Lemma immortality_lasts_five_seconds_witness :
  let r :=
    @run sample [Do StartGame; Do (AddScore 1000);
                 Do (BuyItem IMMORTAL 1000)] (boot 0) in
  let r1 := exec activateImmortality r in
  isImmortalityActive (store (exec (elapse 4999) r1)) = true /\
  isImmortalityActive (store (exec (elapse 5000) r1)) = false.
Proof.
  destruct (immortality_lasts_five_seconds
              (@run sample [Do StartGame; Do (AddScore 1000);
                            Do (BuyItem IMMORTAL 1000)] (boot 0))
              eq_refl eq_refl eq_refl) as (_ & Hlt & Hge).
  split; [apply Hlt; lia | apply Hge; lia].
Defined.

Lemma sorted_tail_after (target : Z) (rest : list Timer) (t : Timer) :
  StronglySorted (fun a b => due a <= due b) rest ->
  match rest with [] => True | u :: _ => target < due u end ->
  In t rest -> target < due t.
Proof.
  intros Hs Hh Hin. destruct rest as [|u rest]; [destruct Hin|].
  inversion Hs as [|? ? _ Hall]; subst.
  destruct Hin as [-> | Hin]; [exact Hh|].
  rewrite Forall_forall in Hall. specialize (Hall _ Hin). lia.
Qed.

(** X8.  Whatever callbacks are pending, an activation never outlasts
    five seconds: in a runtime whose queue holds only the store's own
    callbacks in firing order, the flag is cleared once 5000 ms or more
    have passed since [activateImmortality]. *)
Theorem immortality_ends_within_five_seconds (r : Runtime) (ms : Z) :
  queue_ok (timers r) ->
  hasImmortality (store r) = true ->
  isImmortalityActive (store r) = false ->
  5000 <= ms ->
  isImmortalityActive
    (store (exec (elapse ms) (exec activateImmortality r))) = false.
Proof.
  intros Hq Hh Ha Hms.
  set (t := mkTimer (clock r + 5000) [IsImmortalityActive false]).
  assert (Hr1 : exec activateImmortality r =
                mkRuntime (merge (store r) [IsImmortalityActive true])
                          (clock r) (enqueue t (timers r))).
  { unfold exec, activateImmortality, bind, get. rewrite Hh, Ha.
    reflexivity. }
  rewrite Hr1. clear Hr1.
  assert (Hq1 : queue_ok (enqueue t (timers r)))
    by (apply enqueue_ok; [reflexivity | exact Hq]).
  destruct Hq1 as [Hc Hs].
  unfold exec, elapse. cbn [store clock timers].
  destruct (run_due_clears (clock r + ms) (enqueue t (timers r))
              (merge (store r) [IsImmortalityActive true]) Hc)
    as (fired & Hf & _ & Hst & Hn).
  destruct (run_due _ _ _) as [s q] eqn:E. cbn [fst snd store] in *.
  rewrite Hst.
  destruct fired as [|u fired]; cbn [List.length Nat.eqb].
  - exfalso. cbn [app] in Hf.
    assert (Hin : In t q) by (rewrite <- Hf; apply enqueue_In; auto).
    rewrite Hf in Hs.
    pose proof (sorted_tail_after _ _ _ Hs Hn Hin) as Hlt.
    subst t. cbn [due] in Hlt. lia.
  - destruct (store r); reflexivity.
Qed.

Lemma immortality_ends_within_five_seconds_witness :
  let r :=
    @run sample
      [ Do StartGame; Do (AddScore 1000); Do (BuyItem IMMORTAL 1000);
        Do ActivateImmortality; Wait 1000;
        Do RestartGame; Do (AddScore 1000); Do (BuyItem IMMORTAL 1000);
        Wait 3000 ] (boot 0) in
  isImmortalityActive
    (store (exec (elapse 5000) (exec activateImmortality r))) = false.
Proof.
  apply (immortality_ends_within_five_seconds
           (@run sample
              [ Do StartGame; Do (AddScore 1000); Do (BuyItem IMMORTAL 1000);
                Do ActivateImmortality; Wait 1000;
                Do RestartGame; Do (AddScore 1000);
                Do (BuyItem IMMORTAL 1000);
                Wait 3000 ] (boot 0)) 5000).
  - split; repeat constructor.
  - reflexivity.
  - reflexivity.
  - lia.
Defined.

(** X9.  [activateImmortality] called twice in a row does what one
    call does: the second call finds the flag set (or the ability
    missing) and registers no second callback. *)
Theorem activateImmortality_twice (r : Runtime) :
  exec activateImmortality (exec activateImmortality r)
  = exec activateImmortality r.
Proof.
  unfold exec at 2. unfold activateImmortality at 2. unfold bind, get.
  destruct (hasImmortality (store r) && negb (isImmortalityActive (store r)))
    eqn:E.
  - apply andb_prop in E. destruct E as [Hh Ha].
    apply negb_true_iff in Ha.
    destruct r as [s c q]. destruct s. cbn in Hh, Ha. subst.
    unfold exec, activateImmortality, bind, get. cbn. reflexivity.
  - cbn. unfold exec, activateImmortality, bind, get. rewrite E. reflexivity.
Qed.

(** *** Combo *)

(** X10.  At the very instant the combo window ends
    (now = multiplierEndTime) [tickCombo] still leaves everything as it
    is, while a gem collected at that instant is already scored with
    multiplier 1. *)
Theorem combo_window_end_instant
  {K : Constants} (r : Runtime) (value : Z) :
  clock r = multiplierEndTime (store r) ->
  exec tickCombo r = r /\
  multiplier (store (exec (collectGem value) r)) = 1 /\
  score (store (exec (collectGem value) r)) = score (store r) + value.
Proof.
  intros Hc. split.
  - unfold exec, tickCombo, bind, get, Date_now.
    destruct (_ && _); [|reflexivity].
    destruct (clock r >? multiplierEndTime (store r)) eqn:E;
      [bools; lia | reflexivity].
  - destruct (collectGem_combo r value) as (Hm & _ & Hs & _).
    cbn zeta in *. rewrite Hm, Hs. unfold comboMultiplier.
    rewrite Hc, Z.ltb_irrefl. split; lia.
Qed.

Lemma combo_window_end_instant_witness :
  let r := fiveLetters 1 100 4 2000 2000 in
  exec tickCombo r = r /\
  multiplier (store (exec (@collectGem sample 50) r)) = 1 /\
  score (store (exec (@collectGem sample 50) r)) = 100 + 50.
Proof.
  apply (@combo_window_end_instant sample (fiveLetters 1 100 4 2000 2000) 50).
  reflexivity.
Defined.

(** X11.  [collectLetter] on an index already held only applies the
    combo rule: score, multiplier and multiplierEndTime change, and
    letters, speed, level, lane count and status do not. *)
Theorem collectLetter_duplicate {K : Constants} (r : Runtime) (index : Z) :
  In index (collectedLetters (store r)) ->
  exec (collectLetter index) r =
  mkRuntime
    (merge (store r)
       [ Score (score (store r) + 500 * comboMultiplier r);
         Multiplier (comboMultiplier r);
         MultiplierEndTime (clock r + COMBO_WINDOW_MS) ])
    (clock r) (timers r).
Proof.
  intros Hin.
  assert (Hinc : includes (collectedLetters (store r)) index = true).
  { destruct (includes _ _) eqn:E; [reflexivity|].
    apply includes_false_iff in E. contradiction. }
  unfold exec, collectLetter, bind, get, Date_now, comboMultiplier.
  rewrite Hinc. reflexivity.
Qed.

Lemma collectLetter_duplicate_witness :
  let r := fiveLetters 3 100 1 0 1000 in
  store (exec (@collectLetter sample 2) r) =
  mkState PLAYING 600 3 3 22.5%float [0; 1; 2; 3; 4] 3 7 0 0 1 3000
          false false false.
Proof.
  cbv zeta.
  rewrite (@collectLetter_duplicate sample (fiveLetters 3 100 1 0 1000) 2).
  - reflexivity.
  - cbn. lia.
Defined.

(** X12.  [restartGame] is [startGame]: either one overwrites every
    field of the store, so the store afterwards does not depend on the
    store before; the clock and the pending callbacks are left alone. *)
Theorem restart_forgets_the_store {K : Constants} (r r' : Runtime) :
  store (exec restartGame r) = store (exec startGame r') /\
  timers (exec restartGame r) = timers r /\
  clock (exec restartGame r) = clock r.
Proof. destruct r as [[] ? ?], r' as [[] ? ?]. repeat split. Qed.

Lemma run_cons {K : Constants} (e : Step) (es : list Step) (r : Runtime) :
  run (e :: es) r = run es (exec (step e) r).
Proof. reflexivity. Qed.

Lemma gem_chain_from {K : Constants} (gems : list (Z * Z)) (r : Runtime) :
  1 <= MAX_MULTIPLIER ->
  Forall (within COMBO_WINDOW_MS) gems ->
  Forall clears (timers r) ->
  multiplierEndTime (store r) = clock r + COMBO_WINDOW_MS ->
  multiplier (store r) <= MAX_MULTIPLIER ->
  multiplier (store (run (gemChain gems) r)) =
  Z.min (multiplier (store r) + Z.of_nat (List.length gems)) MAX_MULTIPLIER.
Proof.
  intros HM Hg. revert r.
  induction Hg as [|[gap value] gems Hgap Hg IH]; intros r Hc He Hm.
  - cbn. lia.
  - unfold within in Hgap. cbn [fst] in Hgap.
    cbn [gemChain]. rewrite !run_cons. cbn [step call].
    destruct (elapse_fields r gap Hc) as (Hclk & Hc' & Hst).
    set (r1 := exec (elapse gap) r) in *.
    assert (Hm1 : multiplier (store r1) = multiplier (store r)
                  /\ multiplierEndTime (store r1) = multiplierEndTime (store r)).
    { destruct Hst as [-> | ->]; [auto|]. destruct (store r); auto. }
    destruct Hm1 as [Hm1 He1].
    destruct (collectGem_combo r1 value) as (Hm2 & He2 & _).
    cbn zeta in *.
    assert (Ht2 : timers (exec (collectGem value) r1) = timers r1)
      by reflexivity.
    assert (Hk2 : clock (exec (collectGem value) r1) = clock r1)
      by reflexivity.
    assert (Hcombo : comboMultiplier r1 =
                     Z.min (multiplier (store r) + 1) MAX_MULTIPLIER).
    { unfold comboMultiplier. rewrite He1, He, Hclk, Hm1.
      destruct (_ <? _) eqn:E; [reflexivity | bools; lia]. }
    rewrite IH.
    + rewrite Hm2, Hcombo. cbn [List.length]. lia.
    + rewrite Ht2. exact Hc'.
    + rewrite He2, Hk2. reflexivity.
    + rewrite Hm2, Hcombo. lia.
Qed.

(** X13.  A chain of gems, each collected less than COMBO_WINDOW_MS
    after the previous pickup, raises the multiplier by one per gem up
    to MAX_MULTIPLIER: n gems after a first one leave it at
    min(m + n, MAX_MULTIPLIER), m being the multiplier the first gem
    got. *)
Theorem gem_chain_multiplier
  {K : Constants} (r : Runtime) (value : Z) (gems : list (Z * Z)) :
  1 <= MAX_MULTIPLIER ->
  Forall clears (timers r) ->
  Forall (within COMBO_WINDOW_MS) gems ->
  let r1 := exec (collectGem value) r in
  multiplier (store (run (gemChain gems) r1)) =
  Z.min (comboMultiplier r + Z.of_nat (List.length gems)) MAX_MULTIPLIER.
Proof.
  intros HM Hc Hg. cbv zeta.
  destruct (collectGem_combo r value) as (Hm & He & _). cbv zeta in Hm, He.
  rewrite <- Hm.
  apply gem_chain_from; try assumption.
  - rewrite Hm. unfold comboMultiplier. destruct (_ <? _); lia.
Qed.

Lemma gem_chain_multiplier_witness :
  let r := exec (@startGame sample) (boot 0) in
  let r1 := exec (@collectGem sample 50) r in
  multiplier
    (store (@run sample
              (gemChain [(100, 50); (1999, 50); (0, 100); (500, 50);
                         (1500, 50); (10, 50)]) r1))
  = Z.min (1 + 6) 5.
Proof.
  apply (@gem_chain_multiplier sample (exec (@startGame sample) (boot 0)) 50
           [(100, 50); (1999, 50); (0, 100); (500, 50); (1500, 50); (10, 50)]).
  - cbn. lia.
  - constructor.
  - repeat constructor; cbn; lia.
Defined.

(* ================================================================== *)
(** ** Further properties of the object loop                           *)
(* ================================================================== *)

Import LoopTerms.

Ltac break_ifs :=
  repeat (match goal with
          | |- context [if ?b then _ else _] => destruct b eqn:?
          | |- context [match ?o with Some _ => _ | None => _ end] =>
              destruct o eqn:?
          end; cbn).

Ltac open_object obj :=
  let pos := fresh "pos" in
  destruct obj as [? ? pos ? ? ? ? ? ? ? ? ? ?]; destruct pos as [[? ?] ?].

Ltac unfold_loop :=
  unfold updateObject, updateRegular, alienAI, collide, retire, scrolledOut,
    moved, moveAmount, inZZone, inLane, inReach, regular, gtb,
    with_z, with_active, with_hasFired, vx, vy, vz in *.

Ltac use_tests :=
  repeat match goal with
         | H : ?b = true |- context [?b] => rewrite H
         | H : ?b = false |- context [?b] => rewrite H
         end.

Lemma ltb_asym (x y : float) :
  (x <? y)%float = true -> (y <? x)%float = false.
Proof.
  rewrite !ltb_spec. unfold SFltb.
  rewrite (SFcompare_antisym (Prim2SF x) (Prim2SF y)).
  destruct (SFcompare (Prim2SF x) (Prim2SF y)) as [[]|]; cbn; congruence.
Qed.

(** *** Objects that meet nothing *)

Lemma update_inactive
  {K : Constants} (onPlayerHit : M unit) (safeDelta dist : float)
  (playerPos : Vec3) (l : Loop) (obj : GameObject) :
  regular obj = true ->
  active obj = false ->
  let l' := updateObject onPlayerHit safeDelta dist playerPos l obj in
  l' = retire (moved safeDelta dist obj) l /\
  dispatched l' = dispatched l /\
  runtime l' = runtime l /\
  newSpawns l' = newSpawns l.
Proof.
  intros Hr Ha l'.
  assert (E : l' = retire (moved safeDelta dist obj) l).
  { subst l'. open_object obj. cbn in Ha. subst.
    unfold_loop. destruct type0; try discriminate Hr; cbn; break_ifs;
      reflexivity. }
  rewrite E. split; [reflexivity|].
  unfold retire, finish, changed. destruct (scrolledOut _); repeat split.
Qed.

(** X16.  A regular object that is no longer active is only moved: the
    loop body dispatches nothing for it, calls no store action, spawns
    nothing, and keeps it unless it has scrolled past REMOVE_DISTANCE. *)
Theorem inactive_object_only_moves
  {K : Constants} (onPlayerHit : M unit) (safeDelta dist : float)
  (playerPos : Vec3) (l : Loop) (obj : GameObject) :
  regular obj = true ->
  active obj = false ->
  let l' := updateObject onPlayerHit safeDelta dist playerPos l obj in
  l' = retire (moved safeDelta dist obj) l /\
  dispatched l' = dispatched l /\
  runtime l' = runtime l /\
  newSpawns l' = newSpawns l.
Proof. exact (update_inactive onPlayerHit safeDelta dist playerPos l obj). Qed.

Lemma inactive_object_only_moves_witness :
  let obj := with_active false (obstacleAt 3 0%float (-1)%float) in
  let l := enter false (boot 0) 0 in
  let l' :=
    @updateObject sample takeDamage 0.016%float 0.36%float
                  (0%float, 0%float, 0%float) l obj in
  dispatched l' = [] /\ runtime l' = boot 0 /\ keptObjects l' <> [].
Proof.
  destruct (@inactive_object_only_moves sample takeDamage 0.016%float
              0.36%float (0%float, 0%float, 0%float)
              (enter false (boot 0) 0)
              (with_active false (obstacleAt 3 0%float (-1)%float))
              eq_refl eq_refl) as (E & Hd & Hr & _).
  split; [exact Hd|]. split; [exact Hr|]. rewrite E. discriminate.
Defined.

(** X17.  A player whose feet are at or above OBSTACLE_HEIGHT (1.6) is
    never hit by an obstacle, wherever the obstacle is: the obstacle is
    only moved and stays active. *)
Theorem obstacle_cleared_by_jump
  {K : Constants} (onPlayerHit : M unit) (safeDelta dist : float)
  (playerPos : Vec3) (l : Loop) (obj : GameObject) :
  type obj = OBSTACLE ->
  (OBSTACLE_HEIGHT <=? vy playerPos)%float = true ->
  updateObject onPlayerHit safeDelta dist playerPos l obj
  = retire (moved safeDelta dist obj) l.
Proof.
  intros Hty Hy. apply leb_ltb_false in Hy.
  open_object obj. cbn in Hty. subst.
  destruct playerPos as [[px py] pz]. unfold_loop. cbn in *.
  rewrite Hy. cbn. break_ifs; reflexivity.
Qed.

Lemma obstacle_cleared_by_jump_witness :
  let obj := obstacleAt 3 0%float (-1)%float in
  let l := enter false (boot 0) 0 in
  let l' :=
    @updateObject sample takeDamage 0.016%float 0.36%float
                  (0%float, 1.6%float, 0%float) l obj in
  dispatched l' = [] /\ keptObjects l' = [moved 0.016%float 0.36%float obj].
Proof.
  cbv zeta.
  rewrite (@obstacle_cleared_by_jump sample takeDamage 0.016%float 0.36%float
             (0%float, 1.6%float, 0%float) (enter false (boot 0) 0)
             (obstacleAt 3 0%float (-1)%float) eq_refl eq_refl).
  split; reflexivity.
Defined.

(** X18.  An active obstacle in the player's zone and lane, with the
    player's feet below 1.6 (and head above 0), hits once:
    'player-hit' is dispatched, its listeners run, and the obstacle is
    deactivated, so that no later frame dispatches anything for it. *)
Theorem obstacle_hits_once
  {K : Constants} (onPlayerHit : M unit) (safeDelta dist : float)
  (playerPos : Vec3) (l : Loop) (obj : GameObject) :
  type obj = OBSTACLE ->
  active obj = true ->
  inZZone playerPos (vz (position obj)) (moved safeDelta dist obj) = true ->
  inLane playerPos obj = true ->
  (vy playerPos <? OBSTACLE_HEIGHT)%float = true ->
  gtb (vy playerPos + 1.8)%float 0%float = true ->
  let l' := updateObject onPlayerHit safeDelta dist playerPos l obj in
  let obj' := with_active false (moved safeDelta dist obj) in
  l' = retire obj' (changed (dispatch onPlayerHit player_hit l)) /\
  dispatched l' = dispatched l ++ [player_hit] /\
  runtime l' = exec onPlayerHit (runtime l) /\
  hasChanges l' = true /\
  forall (safeDelta' dist' : float) (playerPos' : Vec3) (l2 : Loop),
    let l3 := updateObject onPlayerHit safeDelta' dist' playerPos' l2 obj' in
    dispatched l3 = dispatched l2 /\ runtime l3 = runtime l2.
Proof.
  intros Hty Ha Hz Hx Hy Ht l' obj'.
  assert (E : l' = retire obj' (changed (dispatch onPlayerHit player_hit l))).
  { subst l' obj'. open_object obj. cbn in Hty, Ha. subst.
    destruct playerPos as [[px py] pz]. unfold_loop. cbn in *.
    rewrite Hz, Hx, Hy, Ht. cbn. break_ifs; reflexivity. }
  split; [exact E|]. rewrite E.
  split; [|split; [|split]].
  - unfold retire. destruct (scrolledOut obj'); reflexivity.
  - unfold retire. destruct (scrolledOut obj'); reflexivity.
  - unfold retire. destruct (scrolledOut obj'); reflexivity.
  - intros safeDelta' dist' playerPos' l2.
    destruct (update_inactive onPlayerHit safeDelta' dist'
                playerPos' l2 obj') as (_ & Hd & Hr & _).
    + subst obj'. unfold regular. cbn. rewrite Hty. reflexivity.
    + reflexivity.
    + split; assumption.
Qed.

Lemma obstacle_hits_once_witness :
  let obj := obstacleAt 3 0%float (-1)%float in
  let l := enter false (exec (@startGame sample) (boot 0)) 0 in
  let l' :=
    @updateObject sample takeDamage 0.016%float 0.36%float
                  (0%float, 0%float, 0%float) l obj in
  dispatched l' = [player_hit] /\ lives (store (runtime l')) = 2.
Proof.
  destruct (@obstacle_hits_once sample takeDamage 0.016%float 0.36%float
              (0%float, 0%float, 0%float)
              (enter false (exec (@startGame sample) (boot 0)) 0)
              (obstacleAt 3 0%float (-1)%float)
              eq_refl eq_refl eq_refl eq_refl eq_refl eq_refl)
    as (_ & Hd & Hr & _).
  split; [exact Hd|]. cbv zeta. rewrite Hr. reflexivity.
Defined.

(** *** The shop portal *)

(** X19.  An active shop portal whose track position is within 2
    units of the player's opens the shop whatever the lane the player
    is in, and is dropped from the object list; a portal further away
    touches neither the store nor the events. *)
Theorem portal_opens_shop_in_any_lane
  {K : Constants} (onPlayerHit : M unit) (safeDelta dist : float)
  (playerPos : Vec3) (l : Loop) (obj : GameObject) :
  type obj = SHOP_PORTAL ->
  active obj = true ->
  let obj1 := moved safeDelta dist obj in
  let near := (abs (vz (position obj1) - vz playerPos) <? 2)%float in
  let l' := updateObject onPlayerHit safeDelta dist playerPos l obj in
  dispatched l' = dispatched l /\
  newSpawns l' = newSpawns l /\
  (near = true ->
   runtime l' = exec openShop (runtime l) /\
   status (store (runtime l')) = SHOP /\
   keptObjects l' = keptObjects l /\
   visited l' = visited l ++ [with_active false obj1] /\
   hasChanges l' = true) /\
  (near = false -> l' = retire obj1 l).
Proof.
  intros Hty Ha obj1 near l'. subst obj1 near l'.
  open_object obj. cbn in Hty, Ha. subst.
  destruct playerPos as [[px py] pz]. unfold_loop. cbn.
  destruct (abs (_ - pz) <? 2)%float eqn:Hn; cbn.
  - destruct (REMOVE_DISTANCE <? _)%float; cbn;
      (split; [reflexivity|]); (split; [reflexivity|]);
      (split; [|discriminate]); intros _; repeat split;
      destruct (runtime l) as [[] ? ?]; reflexivity.
  - destruct (REMOVE_DISTANCE <? _)%float; cbn;
      (split; [reflexivity|]); (split; [reflexivity|]);
      (split; [discriminate|]); reflexivity.
Qed.

Lemma portal_opens_shop_in_any_lane_witness :
  let obj := portalAt 9 (-1.5)%float in
  let l := enter false (exec (@startGame sample) (boot 0)) 0 in
  let l' :=
    @updateObject sample takeDamage 0.016%float 0.36%float
                  (4.4%float, 0%float, 0%float) l obj in
  status (store (runtime l')) = SHOP /\ keptObjects l' = [].
Proof.
  destruct (@portal_opens_shop_in_any_lane sample takeDamage 0.016%float
              0.36%float (4.4%float, 0%float, 0%float)
              (enter false (exec (@startGame sample) (boot 0)) 0)
              (portalAt 9 (-1.5)%float) eq_refl eq_refl)
    as (_ & _ & Hnear & _).
  destruct (Hnear eq_refl) as (_ & Hs & Hk & _).
  split; [exact Hs | exact Hk].
Defined.

(** *** Aliens *)

(** X20.  An active alien that has not fired and has come nearer than
    z = -90 fires exactly one missile, at its own lane offset, height
    1.0 and 2 units in front of it, under a fresh identifier; it is
    then flagged as having fired, and an alien so flagged never spawns
    anything again. *)
Theorem alien_fires_once
  {K : Constants} (onPlayerHit : M unit) (safeDelta dist : float)
  (playerPos : Vec3) (l : Loop) (obj : GameObject) :
  type obj = ALIEN ->
  active obj = true ->
  not_fired (hasFired obj) = true ->
  let obj1 := moved safeDelta dist obj in
  gtb (vz (position obj1)) (-90)%float = true ->
  let l' := updateObject onPlayerHit safeDelta dist playerPos l obj in
  newSpawns l' =
    newSpawns l ++
    [ mkObject (Uuid (uuids l)) MISSILE
        (vx (position obj), 1.0%float, (vz (position obj1) + 2)%float)
        true (Some "#ff0000"%string) None None None None None None None None ]
  /\ uuids l' = S (uuids l)
  /\ hasChanges l' = true
  /\ exists obj' : GameObject,
       visited l' = visited l ++ [obj'] /\
       type obj' = ALIEN /\
       hasFired obj' = Some true /\
       forall (safeDelta' dist' : float) (playerPos' : Vec3) (l2 : Loop)
              (later : GameObject),
         type later = ALIEN -> hasFired later = Some true ->
         newSpawns
           (updateObject onPlayerHit safeDelta' dist' playerPos' l2 later)
         = newSpawns l2.
Proof.
  intros Hty Ha Hf obj1 Hz l'. subst obj1 l'.
  open_object obj. cbn in Hty, Ha, Hf. subst.
  destruct playerPos as [[px py] pz]. unfold_loop. cbn in *.
  rewrite Hf, Hz. cbn.
  assert (Hlater :
    forall (safeDelta' dist' : float) (playerPos' : Vec3) (l2 : Loop)
           (later : GameObject),
      type later = ALIEN -> hasFired later = Some true ->
      newSpawns (updateObject onPlayerHit safeDelta' dist' playerPos' l2 later)
      = newSpawns l2).
  { intros sd' d' pp' l2 later Hty' Hf'.
    open_object later. cbn in Hty', Hf'. subst.
    destruct pp' as [[px' py'] pz']. unfold_loop. cbn.
    rewrite andb_false_r. cbn. break_ifs; reflexivity. }
  break_ifs; (split; [reflexivity|]); (split; [reflexivity|]);
    (split; [reflexivity|]); eexists;
    (split; [reflexivity|]); (split; [reflexivity|]);
    (split; [reflexivity|]); exact Hlater.
Qed.

Lemma alien_fires_once_witness :
  let obj := alienAt 4 2.2%float (-90.2)%float in
  let l := enter false (boot 0) 11 in
  let l' :=
    @updateObject sample takeDamage 0.016%float 0.36%float
                  (0%float, 0%float, 0%float) l obj in
  List.length (newSpawns l') = 1%nat /\ uuids l' = 12%nat.
Proof.
  destruct (@alien_fires_once sample takeDamage 0.016%float 0.36%float
              (0%float, 0%float, 0%float) (enter false (boot 0) 11)
              (alienAt 4 2.2%float (-90.2)%float)
              eq_refl eq_refl eq_refl eq_refl) as (Hs & Hu & _).
  split; [cbv zeta; rewrite Hs; reflexivity | exact Hu].
Defined.

(** *** Pickups *)

(** X21.  An active gem in the player's zone, lane and reach is
    collected: the store gains (points || 50) x the combo multiplier
    and one gem, the collect sound and a particle burst in the gem's
    colour (white when it has none) go out, and the gem is
    deactivated. *)
Theorem gem_pickup_scores
  {K : Constants} (onPlayerHit : M unit) (safeDelta dist : float)
  (playerPos : Vec3) (l : Loop) (obj : GameObject) :
  type obj = GEM ->
  active obj = true ->
  let obj1 := moved safeDelta dist obj in
  inZZone playerPos (vz (position obj)) obj1 = true ->
  inLane playerPos obj = true ->
  inReach playerPos obj = true ->
  let l' := updateObject onPlayerHit safeDelta dist playerPos l obj in
  let r := runtime l in
  runtime l' = exec (collectGem (points_or_50 (points obj))) r /\
  score (store (runtime l')) =
    score (store r) + points_or_50 (points obj) * comboMultiplier r /\
  gemsCollected (store (runtime l')) = gemsCollected (store r) + 1 /\
  dispatched l' =
    dispatched l ++
    [ playGemCollect;
      particle_burst (position obj1) (color_or_white (color obj)) ] /\
  visited l' = visited l ++ [with_active false obj1] /\
  hasChanges l' = true.
Proof.
  intros Hty Ha obj1 Hz Hx Hy l' r. subst obj1 l' r.
  assert (E : runtime (updateObject onPlayerHit safeDelta dist playerPos l obj)
              = exec (collectGem (points_or_50 (points obj))) (runtime l)
              /\ dispatched
                   (updateObject onPlayerHit safeDelta dist playerPos l obj)
                 = dispatched l ++
                   [ playGemCollect;
                     particle_burst (position (moved safeDelta dist obj))
                                    (color_or_white (color obj)) ]
              /\ visited (updateObject onPlayerHit safeDelta dist playerPos l obj)
                 = visited l ++ [with_active false (moved safeDelta dist obj)]
              /\ hasChanges
                   (updateObject onPlayerHit safeDelta dist playerPos l obj)
                 = true).
  { open_object obj. cbn in Hty, Ha. subst.
    destruct playerPos as [[px py] pz]. unfold_loop. cbn in *.
    rewrite Hz, Hx, Hy. cbn.
    destruct (REMOVE_DISTANCE <? _)%float; cbn; rewrite <- ?app_assoc;
      repeat split. }
  destruct E as (Er & Ed & Ev & Eh). rewrite Er.
  destruct (collectGem_combo (runtime l) (points_or_50 (points obj)))
    as (_ & _ & Hs & Hg).
  repeat split; assumption.
Qed.

Lemma gem_pickup_scores_witness :
  let obj := gemAt 5 0%float (-1)%float None in
  let l := enter false (exec (@startGame sample) (boot 0)) 0 in
  let l' :=
    @updateObject sample takeDamage 0.016%float 0.36%float
                  (0%float, 0%float, 0%float) l obj in
  score (store (runtime l')) = 50 /\ gemsCollected (store (runtime l')) = 1.
Proof.
  destruct (@gem_pickup_scores sample takeDamage 0.016%float 0.36%float
              (0%float, 0%float, 0%float)
              (enter false (exec (@startGame sample) (boot 0)) 0)
              (gemAt 5 0%float (-1)%float None)
              eq_refl eq_refl eq_refl eq_refl eq_refl)
    as (_ & Hs & Hg & _).
  split; [exact Hs | exact Hg].
Defined.

(** X22.  An active LETTER object in the player's zone, lane and reach
    is consumed in any case (particle burst, deactivated), but the
    store's [collectLetter] is called only when the object carries a
    targetIndex: without one the store is left as it is and no letter
    sound is played. *)
Theorem letter_pickup_needs_targetIndex
  {K : Constants} (onPlayerHit : M unit) (safeDelta dist : float)
  (playerPos : Vec3) (l : Loop) (obj : GameObject) :
  type obj = LETTER ->
  active obj = true ->
  let obj1 := moved safeDelta dist obj in
  inZZone playerPos (vz (position obj)) obj1 = true ->
  inLane playerPos obj = true ->
  inReach playerPos obj = true ->
  let l' := updateObject onPlayerHit safeDelta dist playerPos l obj in
  let burst := particle_burst (position obj1) (color_or_white (color obj)) in
  visited l' = visited l ++ [with_active false obj1] /\
  hasChanges l' = true /\
  match targetIndex obj with
  | Some index =>
      runtime l' = exec (collectLetter index) (runtime l) /\
      dispatched l' = dispatched l ++ [playLetterCollect; burst]
  | None =>
      runtime l' = runtime l /\
      dispatched l' = dispatched l ++ [burst]
  end.
Proof.
  intros Hty Ha obj1 Hz Hx Hy l' burst. subst obj1 l' burst.
  open_object obj. cbn in Hty, Ha. subst.
  destruct playerPos as [[px py] pz]. unfold_loop. cbn in *.
  rewrite Hz, Hx, Hy. cbn.
  destruct targetIndex0; cbn;
    destruct (REMOVE_DISTANCE <? _)%float; cbn; rewrite <- ?app_assoc;
    repeat split.
Qed.

Lemma letter_pickup_needs_targetIndex_witness :
  let obj :=
    mkObject (Uuid 6) LETTER (0%float, 1.0%float, (-1)%float) true
             (Some "#ea4335"%string) (Some "E"%string) None None None None
             None None None in
  let l := enter false (exec (@startGame sample) (boot 0)) 0 in
  let l' :=
    @updateObject sample takeDamage 0.016%float 0.36%float
                  (0%float, 0%float, 0%float) l obj in
  runtime l' = runtime l /\ List.length (dispatched l') = 1%nat.
Proof.
  destruct (@letter_pickup_needs_targetIndex sample takeDamage 0.016%float
              0.36%float (0%float, 0%float, 0%float)
              (enter false (exec (@startGame sample) (boot 0)) 0)
              (mkObject (Uuid 6) LETTER (0%float, 1.0%float, (-1)%float) true
                 (Some "#ea4335"%string) (Some "E"%string) None None None
                 None None None None)
              eq_refl eq_refl eq_refl eq_refl eq_refl)
    as (_ & _ & Hr & Hd).
  split; [exact Hr | cbv zeta; rewrite Hd; reflexivity].
Defined.

(** *** The whole loop *)

Lemma updateObject_same
  {K : Constants} (onPlayerHit : M unit) (safeDelta dist : float)
  (playerPos : Vec3) (l : Loop) (obj : GameObject) :
  exists obj' : GameObject,
    sameObject obj obj' /\
    visited (updateObject onPlayerHit safeDelta dist playerPos l obj)
    = visited l ++ [obj'] /\
    (keptObjects (updateObject onPlayerHit safeDelta dist playerPos l obj)
     = keptObjects l \/
     keptObjects (updateObject onPlayerHit safeDelta dist playerPos l obj)
     = keptObjects l ++ [obj']).
Proof.
  open_object obj. destruct playerPos as [[px py] pz].
  unfold sameObject. unfold_loop. unfold updateBeam, with_beamTimer,
    with_beamState, with_active.
  destruct type0; cbn; break_ifs; eexists;
    (refine (conj _ (conj eq_refl _)); [repeat split | auto]).
Qed.

Lemma updateObjects_same
  {K : Constants} (onPlayerHit : M unit) (safeDelta dist : float)
  (playerPos : Vec3) (objs : list GameObject) (l : Loop) :
  exists vs ks : list GameObject,
    visited (updateObjects onPlayerHit safeDelta dist playerPos objs l)
    = visited l ++ vs /\
    keptObjects (updateObjects onPlayerHit safeDelta dist playerPos objs l)
    = keptObjects l ++ ks /\
    Forall2 sameObject objs vs /\
    incl ks vs.
Proof.
  revert l. unfold updateObjects.
  induction objs as [|obj objs IH]; intros l; cbn [fold_left].
  - exists [], []. rewrite !app_nil_r. repeat split.
    + constructor.
    + intros x [].
  - destruct (updateObject_same onPlayerHit safeDelta dist playerPos l obj)
      as (obj' & Hsame & Hv & Hk).
    destruct (IH (updateObject onPlayerHit safeDelta dist playerPos l obj))
      as (vs & ks & Hvs & Hks & Hall & Hincl).
    rewrite Hv in Hvs. rewrite <- app_assoc in Hvs.
    destruct Hk as [Hk | Hk]; rewrite Hk in Hks.
    + exists (obj' :: vs), ks. repeat split; auto.
      intros x Hx. right. apply Hincl. exact Hx.
    + rewrite <- app_assoc in Hks.
      exists (obj' :: vs), (obj' :: ks). repeat split; auto.
      intros x [-> | Hx]; [left; reflexivity | right; apply Hincl; exact Hx].
Qed.

(** X14.  At the end of a frame [objectsRef.current] always holds the
    kept objects, then the missiles fired in this frame, then what the
    spawning logic pushed: leaving the old array in place when
    hasChanges is false loses nothing, because then every object was
    kept and nothing was spawned. *)
Theorem commit_is_kept_then_spawned
  {K : Constants} (onPlayerHit : M unit) (speed delta : float)
  (playerPos : Vec3) (currentObjects spawned : list GameObject)
  (hasChanges0 : bool) (rt : Runtime) (n : nat) :
  let l := frameLoop onPlayerHit speed delta playerPos currentObjects
                     hasChanges0 rt n in
  commit spawned l = keptObjects l ++ newSpawns l ++ spawned.
Proof.
  intros l.
  assert (Hinv : loop_invariant l).
  { subst l. unfold frameLoop. apply updateObjects_invariant.
    apply enter_invariant. }
  destruct Hinv as (_ & _ & Hv). unfold commit.
  destruct (hasChanges l) eqn:Hh; cbn [orb]; [reflexivity|].
  destruct spawned as [|s spawned]; cbn [List.length Nat.eqb negb];
    [|reflexivity].
  destruct (Hv eq_refl) as [-> ->]. rewrite !app_nil_r. reflexivity.
Qed.

(** X15.  The loop visits every object of the array once, in order,
    and writes nothing but position[2], active, hasFired, beamState and
    beamTimer: identifier, type, lane offset, height, colour, value,
    points, targetIndex, attackTimer and beamLane are as before.  Every
    kept object is one of the visited ones. *)
Theorem loop_keeps_object_identity
  {K : Constants} (onPlayerHit : M unit) (speed delta : float)
  (playerPos : Vec3) (currentObjects : list GameObject)
  (hasChanges0 : bool) (rt : Runtime) (n : nat) :
  let l := frameLoop onPlayerHit speed delta playerPos currentObjects
                     hasChanges0 rt n in
  Forall2 sameObject currentObjects (visited l) /\
  incl (keptObjects l) (visited l).
Proof.
  intros l. subst l. unfold frameLoop.
  destruct (updateObjects_same onPlayerHit (clamp delta)
              (speed * clamp delta)%float playerPos currentObjects
              (enter hasChanges0 rt n))
    as (vs & ks & Hvs & Hks & Hall & Hincl).
  cbn [enter visited keptObjects app] in Hvs, Hks.
  rewrite Hvs, Hks. split; assumption.
Qed.

(** *** The time step *)

(** X23.  The time step of a frame never exceeds 0.05 s, however long
    the render delta. *)
Theorem clamp_at_most_cap (delta : float) :
  (0.05 <? clamp delta)%float = false.
Proof.
  unfold clamp, Math_min.
  destruct (is_nan delta || is_nan 0.05); [reflexivity|].
  destruct (delta <? 0.05)%float eqn:E1; [apply ltb_asym; exact E1|].
  destruct (0.05 <? delta)%float eqn:E2; [reflexivity|].
  destruct (get_sign delta); [exact E2 | reflexivity].
Qed.

(* ================================================================== *)
(** ** Properties of spawning and of run transitions                   *)
(* ================================================================== *)

Import Spawning Transitions.

(** *** Letters on offer *)

Lemma indices_target (i : Z) : In i (indices target) <-> 0 <= i < 6.
Proof.
  unfold indices, target. cbn. split.
  - intros H. repeat (destruct H as [H | H]; [lia|]). destruct H.
  - intros H.
    assert (E : i = 0 \/ i = 1 \/ i = 2 \/ i = 3 \/ i = 4 \/ i = 5) by lia.
    intuition.
Qed.

Lemma availableIndices_In (collectedLetters : list Z) (i : Z) :
  In i (availableIndices collectedLetters)
  <-> 0 <= i < 6 /\ ~ In i collectedLetters.
Proof.
  unfold availableIndices.
  rewrite filter_In, indices_target, negb_true_iff, includes_false_iff.
  reflexivity.
Qed.

(** X24.  The indices offered for the next letter are exactly the
    indices 0..5 that are not in collectedLetters, each once. *)
Theorem availableIndices_spec (collectedLetters : list Z) (i : Z) :
  (In i (availableIndices collectedLetters)
   <-> 0 <= i < 6 /\ ~ In i collectedLetters)
  /\ NoDup (availableIndices collectedLetters).
Proof.
  split; [apply availableIndices_In|].
  unfold availableIndices. apply NoDup_filter. unfold indices, target. cbn.
  repeat (constructor; [cbn; lia|]). constructor.
Qed.

(** X25.  When a letter is due and some index is still missing, the
    object pushed is a LETTER whose targetIndex is one of 0..5 and is
    not among the collected letters, so that collecting it is never a
    duplicate; the next letter distance moves on by the level's
    interval. *)
Theorem due_letter_is_missing
  {L : Layout} {N : Numerics} (lane : float) (k : nat) (spawnZ : float)
  (level : Z) (collectedLetters : list Z) (nextLetterDistance : float)
  (uuid : nat) :
  (k < List.length (availableIndices collectedLetters))%nat ->
  let pushed :=
    spawnDueLetter lane k spawnZ level collectedLetters nextLetterDistance
                   uuid in
  type (fst pushed) = LETTER /\
  active (fst pushed) = true /\
  snd pushed = (nextLetterDistance + getLetterInterval level)%float /\
  exists index : Z,
    targetIndex (fst pushed) = Some index /\
    0 <= index < 6 /\
    ~ In index collectedLetters /\
    value (fst pushed) = at_index target index /\
    value (fst pushed) <> None.
Proof.
  intros Hk. unfold spawnDueLetter.
  assert (Hpos : (0 <? List.length (availableIndices collectedLetters))%nat
                 = true) by (apply Nat.ltb_lt; lia).
  rewrite Hpos. cbn [fst snd type active targetIndex value].
  destruct (nth_error (availableIndices collectedLetters) k) as [index|] eqn:E.
  - apply nth_error_In in E.
    apply (availableIndices_In collectedLetters index) in E.
    destruct E as [Hr Hn].
    repeat split. exists index. repeat split; try lia; try assumption.
    assert (Hi : index = 0 \/ index = 1 \/ index = 2 \/ index = 3
                 \/ index = 4 \/ index = 5) by lia.
    destruct Hi as [-> | [-> | [-> | [-> | [-> | ->]]]]]; discriminate.
  - apply nth_error_None in E. lia.
Qed.

Lemma due_letter_is_missing_witness :
  let pushed :=
    @spawnDueLetter sampleLayout sampleNumerics 2.2%float 1 (-120)%float 1
                    [0; 2; 5] 150%float 40 in
  targetIndex (fst pushed) = Some 3 /\ value (fst pushed) = Some "I"%string.
Proof.
  destruct (@due_letter_is_missing sampleLayout sampleNumerics 2.2%float 1
              (-120)%float 1 [0; 2; 5] 150%float 40)
    as (_ & _ & _ & index & Hi & _).
  - cbn. lia.
  - split; reflexivity.
Defined.

(** X26.  When a letter is due but all six indices are collected, the
    object pushed is a 50-point gem instead, and the next letter
    distance is not moved: the letter stays due. *)
Theorem due_letter_becomes_gem
  {L : Layout} {N : Numerics} (lane : float) (k : nat) (spawnZ : float)
  (level : Z) (collectedLetters : list Z) (nextLetterDistance : float)
  (uuid : nat) :
  (forall i, 0 <= i < 6 -> In i collectedLetters) ->
  let pushed :=
    spawnDueLetter lane k spawnZ level collectedLetters nextLetterDistance
                   uuid in
  type (fst pushed) = GEM /\
  points (fst pushed) = Some 50 /\
  targetIndex (fst pushed) = None /\
  snd pushed = nextLetterDistance.
Proof.
  intros Hall. unfold spawnDueLetter.
  assert (Hnil : availableIndices collectedLetters = []).
  { destruct (availableIndices collectedLetters) as [|i rest] eqn:E;
      [reflexivity|].
    assert (Hin : In i (availableIndices collectedLetters))
      by (rewrite E; left; reflexivity).
    apply (availableIndices_In collectedLetters i) in Hin.
    destruct Hin as [Hr Hn]. exfalso. apply Hn. apply Hall. exact Hr. }
  rewrite Hnil. cbn. repeat split.
Qed.

Lemma due_letter_becomes_gem_witness :
  let pushed :=
    @spawnDueLetter sampleLayout sampleNumerics 0%float 0 (-120)%float 3
                    [4; 1; 0; 5; 3; 2] 900%float 41 in
  type (fst pushed) = GEM /\ snd pushed = 900%float.
Proof.
  destruct (@due_letter_becomes_gem sampleLayout sampleNumerics 0%float 0
              (-120)%float 3 [4; 1; 0; 5; 3; 2] 900%float 41)
    as (Ht & _ & _ & Hn).
  - intros i Hi. cbn. lia.
  - split; [exact Ht | exact Hn].
Defined.

(** *** Where a batch is spawned *)

Lemma ltb_nan_r (y : float) : (y <? nan)%float = false.
Proof.
  rewrite ltb_spec. unfold SFltb.
  destruct (Prim2SF y) as [s | s | | s m e]; reflexivity.
Qed.

Lemma ltb_irrefl (y : float) : (y <? y)%float = false.
Proof.
  destruct (y <? y)%float eqn:E; [|reflexivity].
  pose proof (ltb_asym y y E). congruence.
Qed.

Lemma Math_min_not_above (x y : float) :
  (y <? Math_min x y)%float = false.
Proof.
  unfold Math_min.
  destruct (is_nan x || is_nan y); [apply ltb_nan_r|].
  destruct (x <? y)%float eqn:E1; [apply ltb_asym; exact E1|].
  destruct (y <? x)%float eqn:E2; [apply ltb_irrefl|].
  destruct (get_sign x); [exact E2 | apply ltb_irrefl].
Qed.

(** X27.  A batch is only spawned while the furthest static object is
    nearer than SPAWN_DISTANCE, and then never nearer than
    SPAWN_DISTANCE itself: spawnZ is not above -SPAWN_DISTANCE.  With
    no static object left the furthest point counts as -20. *)
Theorem spawnPoint_not_nearer_than_spawn_distance
  {L : Layout} (keptObjects : list GameObject) (speed : float) (level : Z)
  (spawnZ : float) :
  spawnPoint keptObjects speed level = Some spawnZ ->
  gtb (furthestZ keptObjects) (- SPAWN_DISTANCE)%float = true /\
  gtb spawnZ (- SPAWN_DISTANCE)%float = false /\
  (filter isStatic keptObjects = [] ->
   furthestZ keptObjects = (-20)%float).
Proof.
  unfold spawnPoint. intros H.
  destruct (gtb (furthestZ keptObjects) (- SPAWN_DISTANCE)%float) eqn:E;
    [|discriminate H].
  inversion H; subst. split; [reflexivity|]. split.
  - unfold gtb. apply Math_min_not_above.
  - intros Hs. unfold furthestZ. rewrite Hs. reflexivity.
Qed.

Lemma spawnPoint_not_nearer_than_spawn_distance_witness :
  let kept := [obstacleAt 1 0%float (-90)%float; beamAt 2 0%float 1%float] in
  @spawnPoint sampleLayout kept 22.5%float 1 = Some (-120)%float /\
  gtb (-120)%float (-120)%float = false.
Proof.
  split; [reflexivity|].
  apply (@spawnPoint_not_nearer_than_spawn_distance sampleLayout
           [obstacleAt 1 0%float (-90)%float; beamAt 2 0%float 1%float]
           22.5%float 1 (-120)%float eq_refl).
Defined.

(** *** Run transitions *)

(** X28.  Entering MENU, or entering PLAYING from GAME_OVER or
    VICTORY, is a hard reset whatever happened to the level: the object
    list is emptied, the distance travelled is 0 and the next letter is
    due after the first level's interval; no portal is added and the
    store is not touched. *)
Theorem hard_reset_on_menu_or_restart
  {L : Layout} {N : Numerics} (status : GameStatus) (level : Z)
  (refs : Refs) (rt : Runtime) :
  status = MENU \/
  (status = PLAYING /\
   (prevStatus refs = GAME_OVER \/ prevStatus refs = VICTORY)) ->
  onTransition status level refs rt =
  (mkRefs [] status level 0%float (getLetterInterval 1)
          (S (renderTrigger refs)) (uuidsMade refs),
   rt).
Proof.
  intros H. unfold onTransition.
  destruct H as [-> | [-> [-> | ->]]]; cbn; reflexivity.
Qed.

Lemma hard_reset_on_menu_or_restart_witness :
  let refs :=
    mkRefs [obstacleAt 1 0%float (-30)%float; shopPortal 2] GAME_OVER 3
           812.5%float 900%float 17 3 in
  objectsRef
    (fst (@onTransition sampleLayout sampleNumerics PLAYING 1 refs (boot 0)))
  = [] /\
  nextLetterDistance
    (fst (@onTransition sampleLayout sampleNumerics PLAYING 1 refs (boot 0)))
  = 150%float.
Proof.
  cbv zeta.
  rewrite (@hard_reset_on_menu_or_restart sampleLayout sampleNumerics
             PLAYING 1
             (mkRefs [obstacleAt 1 0%float (-30)%float; shopPortal 2]
                     GAME_OVER 3 812.5%float 900%float 17 3)
             (boot 0)).
  - split; reflexivity.
  - right. split; [reflexivity | left; reflexivity].
Defined.

(** X29.  A level change to a level above 1 while PLAYING (not coming
    from GAME_OVER or VICTORY) is a soft reset: the objects nearer than
    z = -80 are kept in order, the others dropped, and exactly one shop
    portal is appended at [0, 0, -100] under a fresh identifier; the
    distance travelled and the store are left as they are. *)
Theorem level_up_adds_one_portal
  {L : Layout} {N : Numerics} (level : Z) (refs : Refs) (rt : Runtime) :
  prevStatus refs <> GAME_OVER ->
  prevStatus refs <> VICTORY ->
  level <> prevLevel refs ->
  1 < level ->
  let after := onTransition PLAYING level refs rt in
  objectsRef (fst after) =
    filter (fun obj => gtb (vz (position obj)) (-80)%float) (objectsRef refs)
    ++ [shopPortal (uuidsMade refs)] /\
  (forall o, In o (objectsRef (fst after)) ->
     o = shopPortal (uuidsMade refs) \/
     (In o (objectsRef refs) /\ gtb (vz (position o)) (-80)%float = true)) /\
  distanceTraveled (fst after) = distanceTraveled refs /\
  nextLetterDistance (fst after) =
    (distanceTraveled refs - SPAWN_DISTANCE + getLetterInterval level)%float /\
  uuidsMade (fst after) = S (uuidsMade refs) /\
  snd after = rt.
Proof.
  intros Hg Hv Hl H1 after. subst after. unfold onTransition.
  assert (E1 : GameStatus_eqb (prevStatus refs) GAME_OVER = false)
    by (destruct (prevStatus refs); try reflexivity; congruence).
  assert (E2 : GameStatus_eqb (prevStatus refs) VICTORY = false)
    by (destruct (prevStatus refs); try reflexivity; congruence).
  assert (E3 : (level =? prevLevel refs) = false) by (apply Z.eqb_neq; exact Hl).
  assert (E4 : (level >? 1) = true) by (apply Z.gtb_gt; lia).
  rewrite E1, E2, E3, E4. cbn.
  repeat split. intros o Ho. apply in_app_or in Ho.
  destruct Ho as [Ho | [<- | []]]; [right | left; reflexivity].
  apply filter_In in Ho. exact Ho.
Qed.

Lemma level_up_adds_one_portal_witness :
  let refs :=
    mkRefs [obstacleAt 1 0%float (-30)%float; obstacleAt 2 0%float (-95)%float]
           PLAYING 1 400%float 450%float 17 3 in
  objectsRef
    (fst (@onTransition sampleLayout sampleNumerics PLAYING 2 refs (boot 0)))
  = [obstacleAt 1 0%float (-30)%float; shopPortal 3].
Proof.
  destruct (@level_up_adds_one_portal sampleLayout sampleNumerics 2
              (mkRefs [obstacleAt 1 0%float (-30)%float;
                       obstacleAt 2 0%float (-95)%float]
                      PLAYING 1 400%float 450%float 17 3)
              (boot 0)) as (H & _); try discriminate; try (cbn; lia).
  exact H.
Defined.

(** X30.  Outside MENU the effect settles at once: run a second time
    for the same status and level, it changes neither the refs nor the
    store, so one level-up never yields two portals and one restart
    never resets twice. *)
Theorem transition_effect_settles
  {L : Layout} {N : Numerics} (status : GameStatus) (level : Z)
  (refs : Refs) (rt : Runtime) :
  status <> MENU ->
  let after := onTransition status level refs rt in
  onTransition status level (fst after) (snd after) = after.
Proof.
  intros Hm after. subst after. unfold onTransition.
  destruct status; try congruence; cbn [GameStatus_eqb andb orb];
    rewrite ?andb_false_r; cbn [orb andb].
  - (* PLAYING *)
    destruct (GameStatus_eqb (prevStatus refs) GAME_OVER),
      (GameStatus_eqb (prevStatus refs) VICTORY),
      (level =? prevLevel refs), (level >? 1);
      cbn; rewrite ?Z.eqb_refl; cbn; reflexivity.
  - (* SHOP *) reflexivity.
  - (* GAME_OVER *)
    cbn. destruct rt as [[] ? ?]. reflexivity.
  - (* VICTORY *)
    cbn. destruct rt as [[] ? ?]. reflexivity.
Qed.

Lemma transition_effect_settles_witness :
  let refs :=
    mkRefs [obstacleAt 1 0%float (-30)%float] PLAYING 1 400%float 450%float
           17 3 in
  let after := @onTransition sampleLayout sampleNumerics PLAYING 2 refs
                             (boot 0) in
  @onTransition sampleLayout sampleNumerics PLAYING 2 (fst after) (snd after)
  = after.
Proof.
  apply (@transition_effect_settles sampleLayout sampleNumerics PLAYING 2
           (mkRefs [obstacleAt 1 0%float (-30)%float] PLAYING 1 400%float
                   450%float 17 3) (boot 0)).
  discriminate.
Defined.
